(** * The built-in type [uuid]: a shallow embedding of
    [src/backend/utils/adt/uuid.c] and the properties of its codec,
    ordering, sort support, generator and bit-field extractors. *)

From Stdlib Require Import ZArith Lia Bool List Ascii String Floats Uint63.
From stdpp Require Import base list.

Local Open Scope Z_scope.

(** ** Machine integers

    C integers are carried as [Z]; every conversion to a fixed width is
    written out. *)

Module CInt.

Definition uchar (x : Z) : Z := x mod 2 ^ 8.
Definition uint32 (x : Z) : Z := x mod 2 ^ 32.
Definition uint64 (x : Z) : Z := x mod 2 ^ 64.

(** Two's complement reading of the low 64 bits ([int64], with the
    wrap-around PostgreSQL is built with). *)
Definition int64 (x : Z) : Z := (x + 2 ^ 63) mod 2 ^ 64 - 2 ^ 63.

Definition is_uchar (x : Z) : Prop := 0 <= x < 256.

Definition is_ucharb (x : Z) : bool := (0 <=? x) && (x <? 256).

End CInt.
Import CInt.

(** ** The value type

    [pg_uuid_t] is [struct { unsigned char data[UUID_LEN]; }]. *)

Definition UUID_LEN : nat := 16.

Abbreviation pg_uuid_t := (list Z).

(** [uuid->data[i]] *)
Definition data_at (u : pg_uuid_t) (i : nat) : Z := default 0 (u !! i).

(** A well-formed value: sixteen bytes. *)
Definition uuid_wf (u : pg_uuid_t) : Prop :=
  length u = UUID_LEN /\ Forall is_uchar u.

(** [palloc(UUID_LEN)]: a fresh buffer.  Every function below assigns a
    byte before it reads it, so the initial contents are immaterial. *)
Definition palloc (n : nat) : list Z := replicate n 0.

(** [memcmp]: the difference of the first pair of bytes that differ. *)
Fixpoint memcmp (a b : list Z) (n : nat) {struct n} : Z :=
  match n with
  | O => 0
  | S n' =>
      match a, b with
      | x :: a', y :: b' => if x =? y then memcmp a' b' n' else x - y
      | _, _ => 0
      end
  end.

Definition uuid_internal_cmp (arg1 arg2 : pg_uuid_t) : Z :=
  memcmp arg1 arg2 UUID_LEN.

Definition uuid_lt (a b : pg_uuid_t) : bool := uuid_internal_cmp a b <? 0.
Definition uuid_le (a b : pg_uuid_t) : bool := uuid_internal_cmp a b <=? 0.
Definition uuid_eq (a b : pg_uuid_t) : bool := uuid_internal_cmp a b =? 0.
Definition uuid_ge (a b : pg_uuid_t) : bool := uuid_internal_cmp a b >=? 0.
Definition uuid_gt (a b : pg_uuid_t) : bool := uuid_internal_cmp a b >? 0.
Definition uuid_ne (a b : pg_uuid_t) : bool := negb (uuid_internal_cmp a b =? 0).

(** [uuid_cmp], the btree support function. *)
Definition uuid_cmp (arg1 arg2 : pg_uuid_t) : Z := uuid_internal_cmp arg1 arg2.

(** ** The version 7 generator *)

Module Gen.

(** The two file-level statics. *)
Record gen_state := GenState {
  sequence_counter : Z;     (* uint32_t *)
  previous_timestamp : Z    (* uint64_t *)
}.

(** Both statics start at zero. *)
Definition initial : gen_state := GenState 0 0.

Record timeval := Timeval { tv_sec : Z; tv_usec : Z }.

(** [tms = ((uint64_t) tp.tv_sec) * 1000 + (tp.tv_usec) / 1000] *)
Definition clock_ms (tp : timeval) : Z :=
  uint64 (uint64 (tv_sec tp) * 1000 + tv_usec tp ÷ 1000).

(** The part of [uuidv7] before the byte layout: the new statics and
    the local [tms] as it stands afterwards. *)
Definition advance (st : gen_state) (tp : timeval) : gen_state * Z :=
  let tms := clock_ms tp in
  let increment_counter := tms <=? previous_timestamp st in
  if increment_counter then
    let sc := uint32 (sequence_counter st + 1) in
    let st1 :=
      if sc >? 0x3ffff
      then GenState 0 (uint64 (previous_timestamp st + 1))
      else GenState sc (previous_timestamp st) in
    (st1, previous_timestamp st1)
  else
    (GenState 0 tms, tms).

(** The outcome of [pg_strong_random(buf, len)]: [None] when the
    source fails, else the bytes it wrote. *)
Definition random_outcome := option (list Z).

(** [memcpy]-like store of [src] into [buf] from index [i] on. *)
Fixpoint store_bytes (buf : list Z) (i : nat) (src : list Z) : list Z :=
  match src with
  | [] => buf
  | b :: src' => store_bytes (<[i := b]> buf) (S i) src'
  end.

(** The byte layout, up to the call of the random source. *)
Definition fill_time_and_counter (tms sc : Z) (uuid : pg_uuid_t) : pg_uuid_t :=
  let uuid := <[0%nat := uchar (Z.shiftr tms 40)]> uuid in
  let uuid := <[1%nat := uchar (Z.shiftr tms 32)]> uuid in
  let uuid := <[2%nat := uchar (Z.shiftr tms 24)]> uuid in
  let uuid := <[3%nat := uchar (Z.shiftr tms 16)]> uuid in
  let uuid := <[4%nat := uchar (Z.shiftr tms 8)]> uuid in
  let uuid := <[5%nat := uchar tms]> uuid in
  let uuid := <[6%nat := uchar (Z.shiftr sc 14)]> uuid in
  let uuid := <[7%nat := uchar (Z.shiftr sc 6)]> uuid in
  let uuid := <[8%nat := uchar sc]> uuid in
  uuid.

(** The version and variant fields, set last. *)
Definition set_version_variant (uuid : pg_uuid_t) : pg_uuid_t :=
  let uuid := <[6%nat := Z.lor (Z.land (data_at uuid 6) 0x0f) 0x70]> uuid in
  let uuid := <[8%nat := Z.lor (Z.land (data_at uuid 8) 0x3f) 0x80]> uuid in
  uuid.

(** [uuidv7]: the statics are updated before the random source is
    asked, so they change even when the call ends in [ereport(ERROR)]
    (result [None]). *)
Definition uuidv7 (st : gen_state) (tp : timeval) (rnd : random_outcome)
  : gen_state * option pg_uuid_t :=
  let '(st', tms) := advance st tp in
  let uuid := fill_time_and_counter tms (sequence_counter st') (palloc UUID_LEN) in
  match rnd with
  | None => (st', None)
  | Some bytes =>
      let uuid := store_bytes uuid 8 (take (UUID_LEN - 8) bytes) in
      (st', Some (set_version_variant uuid))
  end.

(** The statics as the code keeps them: an 18-bit counter and a
    64-bit timestamp. *)
Definition gen_state_wf (st : gen_state) : Prop :=
  0 <= sequence_counter st <= 0x3ffff
  /\ 0 <= previous_timestamp st < 2 ^ 64.

(** Lexicographic order on [(previous_timestamp, sequence_counter)]. *)
Definition state_le (a b : gen_state) : Prop :=
  previous_timestamp a < previous_timestamp b
  \/ (previous_timestamp a = previous_timestamp b
      /\ sequence_counter a <= sequence_counter b).

Definition state_lt (a b : gen_state) : Prop :=
  previous_timestamp a < previous_timestamp b
  \/ (previous_timestamp a = previous_timestamp b
      /\ sequence_counter a < sequence_counter b).

(** The one state from which a call wraps the 64-bit timestamp. *)
Definition at_wrap (st : gen_state) : Prop :=
  previous_timestamp st = 2 ^ 64 - 1 /\ sequence_counter st = 0x3ffff.

(** Successive calls in one process: the states after each call. *)
Fixpoint run_states (st : gen_state) (calls : list (timeval * random_outcome))
  : list gen_state :=
  match calls with
  | [] => []
  | (tp, rnd) :: calls' =>
      let st' := fst (uuidv7 st tp rnd) in
      st' :: run_states st' calls'
  end.

(** ... and the values they return. *)
Fixpoint run_values (st : gen_state) (calls : list (timeval * random_outcome))
  : list (option pg_uuid_t) :=
  match calls with
  | [] => []
  | (tp, rnd) :: calls' =>
      let '(st', v) := uuidv7 st tp rnd in
      v :: run_values st' calls'
  end.

(** The same call made [n] times over. *)
Definition repeat_call (n : N) (tp : timeval) (rnd : random_outcome)
  (st : gen_state) : gen_state :=
  N.iter n (fun s => fst (uuidv7 s tp rnd)) st.

(** No call of the run is made from the wrapping state. *)
Fixpoint never_at_wrap (st : gen_state) (calls : list (timeval * random_outcome))
  : Prop :=
  match calls with
  | [] => True
  | (tp, rnd) :: calls' =>
      ~ at_wrap st /\ never_at_wrap (fst (uuidv7 st tp rnd)) calls'
  end.

(** The timestamp a call works with after the clock has been read and
    the statics updated: the local [tms] at the byte layout. *)
Definition effective_timestamp (st : gen_state) (tp : timeval) : Z :=
  snd (advance st tp).

(** The value [uuidv7] returns when the random source delivers. *)
Definition v7_value (tms sc : Z) (bytes : list Z) : list Z :=
  set_version_variant
    (store_bytes (fill_time_and_counter tms sc (palloc UUID_LEN)) 8
       (take (UUID_LEN - 8) bytes)).

(** The last millisecond a 64-bit count can hold, as a clock reading,
    and the state 262144 calls at that reading lead to. *)
Definition last_clock : timeval := Timeval 18446744073709551 615999.

Definition last_state_before_wrap : gen_state :=
  repeat_call 262143 last_clock (Some (replicate 8 0))
    (fst (uuidv7 initial last_clock (Some (replicate 8 0)))).

(** What the random source hands back when it delivers [n] bytes. *)
Definition random_bytes (n : nat) (bytes : list Z) : Prop :=
  length bytes = n /\ Forall is_uchar bytes.

(** [gen_random_uuid]: all sixteen bytes come from the random source,
    then the version and variant fields are set; [None] is the
    [ereport(ERROR)] taken when the source fails. *)
Definition gen_random_uuid (rnd : random_outcome) : option pg_uuid_t :=
  match rnd with
  | None => None
  | Some bytes =>
      let uuid := store_bytes (palloc UUID_LEN) 0 (take UUID_LEN bytes) in
      let uuid := <[6%nat := Z.lor (Z.land (data_at uuid 6) 0x0f) 0x40]> uuid in
      let uuid := <[8%nat := Z.lor (Z.land (data_at uuid 8) 0x3f) 0x80]> uuid in
      Some uuid
  end.

(** The first eight bytes of a value, read as one big-endian number. *)
Definition prefix64 (u : pg_uuid_t) : Z :=
  data_at u 0 * 2 ^ 56 + data_at u 1 * 2 ^ 48 + data_at u 2 * 2 ^ 40
  + data_at u 3 * 2 ^ 32 + data_at u 4 * 2 ^ 24 + data_at u 5 * 2 ^ 16
  + data_at u 6 * 2 ^ 8 + data_at u 7.

End Gen.

(** ** Text input and output *)

Module Codec.

(** The terminator of a C string. *)
Definition NUL : ascii := Ascii.zero.

(** [s[k]] for a C string: the characters, then the terminator. *)
Definition char_at (s : string) (k : nat) : ascii :=
  match String.get k s with
  | Some c => c
  | None => NUL
  end.

(** [s + k]; never moved past the terminator by the code below. *)
Fixpoint ptr_add (s : string) (k : nat) {struct k} : string :=
  match k, s with
  | S k', String _ s' => ptr_add s' k'
  | _, _ => s
  end.

Definition hex_chars : string := "0123456789abcdef".

(** The two digits [uuid_out] prints for a byte: [hex_chars[b >> 4]] and
    [hex_chars[b & 0x0F]]. *)
Definition hex_hi (b : Z) : ascii := char_at hex_chars (Z.to_nat (Z.shiftr b 4)).
Definition hex_lo (b : Z) : ascii := char_at hex_chars (Z.to_nat (Z.land b 0x0F)).

(** The loop of [uuid_out], from index [i] with [n] rounds to go. *)
Fixpoint uuid_out_loop (n i : nat) (uuid : pg_uuid_t) : string :=
  match n with
  | O => EmptyString
  | S n' =>
      let hi := Z.shiftr (data_at uuid i) 4 in
      let lo := Z.land (data_at uuid i) 0x0F in
      let digits :=
        String (char_at hex_chars (Z.to_nat hi))
          (String (char_at hex_chars (Z.to_nat lo))
             (uuid_out_loop n' (S i) uuid)) in
      if ((i =? 4) || (i =? 6) || (i =? 8) || (i =? 10))%nat
      then String "-" digits
      else digits
  end.

Definition uuid_out (uuid : pg_uuid_t) : string :=
  uuid_out_loop UUID_LEN 0 uuid.

Definition code (c : ascii) : Z := Z.of_N (N_of_ascii c).

(** [isxdigit((unsigned char) c)] *)
Definition isxdigit (c : ascii) : bool :=
  ((48 <=? code c) && (code c <=? 57))
  || ((65 <=? code c) && (code c <=? 70))
  || ((97 <=? code c) && (code c <=? 102)).

Definition xdigit_value (c : ascii) : Z :=
  if (48 <=? code c) && (code c <=? 57) then code c - 48
  else if (65 <=? code c) && (code c <=? 70) then code c - 55
  else code c - 87.

(** [strtoul(str_buf, NULL, 16)] on a buffer of hexadecimal digits. *)
Fixpoint strtoul16 (acc : Z) (s : string) : Z :=
  match s with
  | EmptyString => acc
  | String c s' =>
      if isxdigit c then strtoul16 (acc * 16 + xdigit_value c) s' else acc
  end.

(** The [for] loop of [string_to_uuid]; [None] is [goto syntax_error]. *)
Fixpoint string_to_uuid_loop (n i : nat) (src : string) (uuid : pg_uuid_t)
  : option (string * pg_uuid_t) :=
  match n with
  | O => Some (src, uuid)
  | S n' =>
      if Ascii.eqb (char_at src 0) NUL || Ascii.eqb (char_at src 1) NUL
      then None
      else
        let str_buf := String (char_at src 0) (String (char_at src 1) EmptyString) in
        if negb (isxdigit (char_at str_buf 0)) || negb (isxdigit (char_at str_buf 1))
        then None
        else
          let uuid := <[i := uchar (strtoul16 0 str_buf)]> uuid in
          let src := ptr_add src 2 in
          let src :=
            if Ascii.eqb (char_at src 0) "-" && (i mod 2 =? 1)%nat
               && (i <? UUID_LEN - 1)%nat
            then ptr_add src 1
            else src in
          string_to_uuid_loop n' (S i) src uuid
  end.

(** What [string_to_uuid] leaves behind: the filled value, or the soft
    error raised through [ereturn], which carries the input text. *)
Inductive parsed :=
| Parsed (uuid : pg_uuid_t)
| InvalidTextRepresentation (source : string).

Definition string_to_uuid (source : string) (uuid : pg_uuid_t) : parsed :=
  let syntax_error := InvalidTextRepresentation source in
  let '(src, braces) :=
    if Ascii.eqb (char_at source 0) "{"
    then (ptr_add source 1, true)
    else (source, false) in
  match string_to_uuid_loop UUID_LEN 0 src uuid with
  | None => syntax_error
  | Some (src, uuid) =>
      if braces && negb (Ascii.eqb (char_at src 0) "}")
      then syntax_error
      else
        let src := if braces then ptr_add src 1 else src in
        if negb (Ascii.eqb (char_at src 0) NUL)
        then syntax_error
        else Parsed uuid
  end.

Definition uuid_in (uuid_str : string) : parsed :=
  string_to_uuid uuid_str (palloc UUID_LEN).

(** The reading of the input grammar that admits a hyphen after bytes
    3, 5, 7 and 9 only; kept beside [string_to_uuid_loop] for
    comparison. *)
Fixpoint canonical_hyphen_loop (n i : nat) (src : string) (uuid : pg_uuid_t)
  : option (string * pg_uuid_t) :=
  match n with
  | O => Some (src, uuid)
  | S n' =>
      if Ascii.eqb (char_at src 0) NUL || Ascii.eqb (char_at src 1) NUL
      then None
      else
        let str_buf := String (char_at src 0) (String (char_at src 1) EmptyString) in
        if negb (isxdigit (char_at str_buf 0)) || negb (isxdigit (char_at str_buf 1))
        then None
        else
          let uuid := <[i := uchar (strtoul16 0 str_buf)]> uuid in
          let src := ptr_add src 2 in
          let src :=
            if Ascii.eqb (char_at src 0) "-"
               && ((i =? 3) || (i =? 5) || (i =? 7) || (i =? 9))%nat
            then ptr_add src 1
            else src in
          canonical_hyphen_loop n' (S i) src uuid
  end.

(** The hyphens of the output format: after bytes 3, 5, 7 and 9. *)
Definition output_hyphen (i : nat) : bool :=
  ((i =? 3) || (i =? 5) || (i =? 7) || (i =? 9))%nat.

(** A text for [uuid]: two lowercase digits per byte, and a hyphen
    after byte [i] wherever [hyphen i] holds. *)
Fixpoint hyphenated_loop (hyphen : nat -> bool) (n i : nat) (uuid : pg_uuid_t)
  : string :=
  match n with
  | O => EmptyString
  | S n' =>
      let hi := Z.shiftr (data_at uuid i) 4 in
      let lo := Z.land (data_at uuid i) 0x0F in
      let rest := hyphenated_loop hyphen n' (S i) uuid in
      String (char_at hex_chars (Z.to_nat hi))
        (String (char_at hex_chars (Z.to_nat lo))
           (if hyphen i then String "-" rest else rest))
  end.

Definition hyphenated (hyphen : nat -> bool) (uuid : pg_uuid_t) : string :=
  hyphenated_loop hyphen UUID_LEN 0 uuid.

(** The places where [string_to_uuid] takes a hyphen: after byte [i]
    for odd [i] below [UUID_LEN - 1]. *)
Definition hyphen_allowed (i : nat) : bool :=
  ((i mod 2 =? 1) && (i <? UUID_LEN - 1))%nat.

Definition hyphens_allowed (hyphen : nat -> bool) : bool :=
  forallb (fun i => implb (hyphen i) (hyphen_allowed i)) (seq 0 UUID_LEN).

(** The canonical output pattern: 36 characters, hyphens at offsets 8,
    13, 18 and 23, lowercase hexadecimal digits elsewhere. *)
Definition is_lower_hex (c : ascii) : bool :=
  ((48 <=? code c) && (code c <=? 57)) || ((97 <=? code c) && (code c <=? 102)).

Fixpoint canonical_from (k : nat) (s : string) : bool :=
  match s with
  | EmptyString => (k =? 36)%nat
  | String c s' =>
      (if ((k =? 8) || (k =? 13) || (k =? 18) || (k =? 23))%nat
       then Ascii.eqb c "-" else is_lower_hex c)
      && canonical_from (S k) s'
  end.

Definition is_canonical (s : string) : bool := canonical_from 0 s.

(** What the digits printed for a byte must satisfy for the input loop
    to read the byte back. *)
Definition hex_pair_ok (b : Z) : bool :=
  negb (Ascii.eqb (hex_hi b) NUL) && negb (Ascii.eqb (hex_lo b) NUL)
  && isxdigit (hex_hi b) && isxdigit (hex_lo b)
  && negb (Ascii.eqb (hex_hi b) "-") && negb (Ascii.eqb (hex_hi b) "{")
  && is_lower_hex (hex_hi b) && is_lower_hex (hex_lo b)
  && (uchar (strtoul16 0 (String (hex_hi b) (String (hex_lo b) EmptyString))) =? b).

(** The loop has failed, or stopped in front of a hyphen. *)
Definition stuck_on_hyphen (r : option (string * list Z)) : Prop :=
  match r with
  | None => True
  | Some (s, _) => char_at s 0 = "-"%char
  end.

(** The hexadecimal digits of a text, and whether it is free of the
    terminator (as the part of a C string before its end is). *)
Fixpoint count_xdigits (s : string) : nat :=
  match s with
  | EmptyString => 0%nat
  | String c s' => ((if isxdigit c then 1 else 0) + count_xdigits s')%nat
  end.

Fixpoint no_nul (s : string) : bool :=
  match s with
  | EmptyString => true
  | String c s' => negb (Ascii.eqb c NUL) && no_nul s'
  end.

(** A hyphen of [src], with [pre] before it and [post] after it, is
    either still ahead of the loop or was taken at an allowed place. *)
Definition hyphen_accounted (i n : nat) (pre post src' : string) : Prop :=
  (exists used pre', pre = (used ++ pre')%string
                     /\ src' = (pre' ++ String "-" post)%string)
  \/ (exists j, (i <= j < i + n)%nat /\ hyphen_allowed j = true
                /\ count_xdigits pre = (2 * (j - i + 1))%nat).

(** [toupper] in the C locale, and a text with its letters in upper
    case. *)
Definition toupper (c : ascii) : ascii :=
  if (97 <=? code c) && (code c <=? 122)
  then ascii_of_N (N_of_ascii c - 32)
  else c.

Fixpoint upcase (s : string) : string :=
  match s with
  | EmptyString => EmptyString
  | String c s' => String (toupper c) (upcase s')
  end.

(** The value a parse ends with, whatever text the error carries. *)
Definition parsed_value (r : parsed) : option pg_uuid_t :=
  match r with
  | Parsed uuid => Some uuid
  | InvalidTextRepresentation _ => None
  end.

End Codec.

(** ** Sort support: abbreviated keys *)

Module SortSupport.

(** The target: [SIZEOF_DATUM] and [WORDS_BIGENDIAN]. *)
Inductive datum_size := Datum4 | Datum8.
Inductive byte_order := LittleEndian | BigEndian.

Record target := Target { datum : datum_size; order : byte_order }.

Definition SIZEOF_DATUM (t : target) : nat :=
  match datum t with Datum4 => 4%nat | Datum8 => 8%nat end.

(** The unsigned integer held by a run of bytes in memory. *)
Fixpoint from_bytes_le (bs : list Z) : Z :=
  match bs with
  | [] => 0
  | b :: bs' => b + 256 * from_bytes_le bs'
  end.

Definition from_bytes_be (bs : list Z) : Z := from_bytes_le (rev bs).

(** The bytes an unsigned integer of [n] bytes occupies, lowest first. *)
Fixpoint to_bytes_le (n : nat) (x : Z) : list Z :=
  match n with
  | O => []
  | S n' => x mod 256 :: to_bytes_le n' (x / 256)
  end.

Definition load (t : target) (bs : list Z) : Z :=
  match order t with
  | LittleEndian => from_bytes_le bs
  | BigEndian => from_bytes_be bs
  end.

(** Modelled from the spec: [port/pg_bswap.h] is not among the sources.
    [pg_bswap32] and [pg_bswap64] reverse the bytes of a word, and
    [DatumBigEndianToNative] applies them on little-endian targets
    only, so that a word stored as a big-endian number is read in the
    native unsigned order. *)
Definition pg_bswap (n : nat) (x : Z) : Z :=
  from_bytes_le (rev (to_bytes_le n x)).

Definition DatumBigEndianToNative (t : target) (x : Z) : Z :=
  match order t with
  | BigEndian => x
  | LittleEndian => pg_bswap (SIZEOF_DATUM t) x
  end.

(** Modelled from the spec: [ssup_datum_unsigned_cmp] of the sort
    machinery, the plain three-way comparison of two unsigned words. *)
Definition ssup_datum_unsigned_cmp (x y : Z) : Z :=
  if x <? y then -1 else if x >? y then 1 else 0.

(** The cardinality estimator of [lib/hyperloglog.h] and the hash of
    [common/hashfn.h], which [uuid.c] only calls. *)
Class Estimator := {
  hyperLogLogState : Type;
  initHyperLogLog : Z -> hyperLogLogState;
  addHyperLogLog : hyperLogLogState -> Z -> hyperLogLogState;
  estimateHyperLogLog : hyperLogLogState -> float;
  hash_uint32 : Z -> Z
}.

Section WithEstimator.
Context `{Estimator}.

Record uuid_sortsupport_state := SortState {
  input_count : Z;               (* int64 *)
  estimating : bool;
  abbr_card : hyperLogLogState
}.

(** The state [uuid_sortsupport] sets up when abbreviation is on. *)
Definition uuid_sortsupport_init : uuid_sortsupport_state :=
  SortState 0 true (initHyperLogLog 10).

(** Conversion of an [int64] to [double]. *)
Definition int64_to_double (n : Z) : float :=
  if n <? 0
  then PrimFloat.opp (PrimFloat.of_uint63 (Uint63.of_Z (- n)))
  else PrimFloat.of_uint63 (Uint63.of_Z n).

Definition uuid_abbrev_abort (memtupcount : Z) (uss : uuid_sortsupport_state)
  : bool * uuid_sortsupport_state :=
  if (memtupcount <? 10000) || (input_count uss <? 10000)
     || negb (estimating uss)
  then (false, uss)
  else
    let card := estimateHyperLogLog (abbr_card uss) in
    if PrimFloat.ltb 100000.0 card
    then (false, SortState (input_count uss) false (abbr_card uss))
    else if PrimFloat.ltb card
              (PrimFloat.add
                 (PrimFloat.div (int64_to_double (input_count uss)) 2000.0)
                 0.5)
    then (true, uss)
    else (false, uss).

Definition uuid_abbrev_convert (t : target) (original : pg_uuid_t)
  (uss : uuid_sortsupport_state) : Z * uuid_sortsupport_state :=
  let res := load t (take (SIZEOF_DATUM t) original) in
  let count := int64 (input_count uss + 1) in
  let card :=
    if estimating uss
    then
      let tmp :=
        match datum t with
        | Datum8 => Z.lxor (uint32 res) (uint32 (Z.shiftr (uint64 res) 32))
        | Datum4 => uint32 res
        end in
      addHyperLogLog (abbr_card uss) (uint32 (hash_uint32 tmp))
    else abbr_card uss in
  let res := DatumBigEndianToNative t res in
  (res, SortState count (estimating uss) card).

(** The calls a sort makes once the state exists. *)
Inductive sort_call :=
| Convert (original : pg_uuid_t)
| Abort (memtupcount : Z).

Definition sort_step (t : target) (uss : uuid_sortsupport_state) (c : sort_call)
  : uuid_sortsupport_state :=
  match c with
  | Convert original => snd (uuid_abbrev_convert t original uss)
  | Abort memtupcount => snd (uuid_abbrev_abort memtupcount uss)
  end.

Definition sort_run (t : target) (uss : uuid_sortsupport_state)
  (calls : list sort_call) : uuid_sortsupport_state :=
  fold_left (sort_step t) calls uss.

End WithEstimator.

(** An estimator that always answers its own state, for running the
    callbacks on concrete inputs. *)
Definition fixed_estimator : Estimator := {|
  hyperLogLogState := float;
  initHyperLogLog := fun _ => 0%float;
  addHyperLogLog := fun s _ => s;
  estimateHyperLogLog := fun s => s;
  hash_uint32 := fun x => x
|}.

Definition fixed_state (count : Z) (est : bool) (card : float)
  : @uuid_sortsupport_state fixed_estimator :=
  @SortState fixed_estimator count est card.

(** [uuid_fast_cmp], the authoritative comparator handed to the sort. *)
Definition uuid_fast_cmp (x y : pg_uuid_t) : Z := uuid_internal_cmp x y.

(** The number of values a run of calls converts. *)
Definition is_convert (c : sort_call) : bool :=
  match c with
  | Convert _ => true
  | Abort _ => false
  end.

Fixpoint converted (calls : list sort_call) : Z :=
  match calls with
  | [] => 0
  | c :: calls' => (if is_convert c then 1 else 0) + converted calls'
  end.

End SortSupport.

(** ** Bit-field extraction *)

Module Extract.

(** Modelled from the spec: the epoch macros of [datatype/timestamp.h]
    are not among the sources.  They are the Julian day numbers of the
    Unix epoch, of the engine's timestamp epoch (2000-01-01) and of the
    Gregorian epoch (1582-10-15), and the lengths of a day and of a
    second. *)
Definition UNIX_EPOCH_JDATE : Z := 2440588.
Definition POSTGRES_EPOCH_JDATE : Z := 2451545.
Definition GREGORIAN_EPOCH_JDATE : Z := 2299161.
Definition SECS_PER_DAY : Z := 86400.
Definition USECS_PER_SEC : Z := 1000000.

(** [(int) a * b] *)
Definition int32 (x : Z) : Z := (x + 2 ^ 31) mod 2 ^ 32 - 2 ^ 31.

(** [((uint64_t) b) << k] *)
Definition shl64 (b : Z) (k : Z) : Z := uint64 (Z.shiftl (uint64 b) k).

(** [uuid_extract_timestamp]; [None] is the SQL null. *)
Definition uuid_extract_timestamp (uuid : pg_uuid_t) : option Z :=
  if negb (Z.land (data_at uuid 8) 0xc0 =? 0x80) then None
  else if Z.land (data_at uuid 6) 0xf0 =? 0x70 then
    let tms := data_at uuid 5 in
    let tms := uint64 (tms + shl64 (data_at uuid 4) 8) in
    let tms := uint64 (tms + shl64 (data_at uuid 3) 16) in
    let tms := uint64 (tms + shl64 (data_at uuid 2) 24) in
    let tms := uint64 (tms + shl64 (data_at uuid 1) 32) in
    let tms := uint64 (tms + shl64 (data_at uuid 0) 40) in
    let ts :=
      int64 (int64 (uint64 (tms * 1000))
             - int64 (int32 (int32 (POSTGRES_EPOCH_JDATE - UNIX_EPOCH_JDATE)
                             * SECS_PER_DAY)
                      * USECS_PER_SEC)) in
    Some ts
  else if Z.land (data_at uuid 6) 0xf0 =? 0x10 then
    let tms := shl64 (data_at uuid 0) 24 in
    let tms := uint64 (tms + shl64 (data_at uuid 1) 16) in
    let tms := uint64 (tms + shl64 (data_at uuid 2) 8) in
    let tms := uint64 (tms + uint64 (data_at uuid 3)) in
    let tms := uint64 (tms + shl64 (data_at uuid 4) 40) in
    let tms := uint64 (tms + shl64 (data_at uuid 5) 32) in
    let tms := uint64 (tms + shl64 (Z.land (uint64 (data_at uuid 6)) 0xf) 56) in
    let tms := uint64 (tms + shl64 (data_at uuid 7) 48) in
    let ts :=
      int64 (uint64 (int64 (tms / 10))
             - uint64 (uint64 (uint64 POSTGRES_EPOCH_JDATE - GREGORIAN_EPOCH_JDATE)
                       * SECS_PER_DAY * USECS_PER_SEC)) in
    Some ts
  else if Z.land (data_at uuid 6) 0xf0 =? 0x60 then
    let tms := shl64 (data_at uuid 0) 52 in
    let tms := uint64 (tms + shl64 (data_at uuid 1) 44) in
    let tms := uint64 (tms + shl64 (data_at uuid 2) 36) in
    let tms := uint64 (tms + shl64 (data_at uuid 3) 28) in
    let tms := uint64 (tms + shl64 (data_at uuid 4) 20) in
    let tms := uint64 (tms + shl64 (data_at uuid 5) 12) in
    let tms := uint64 (tms + shl64 (Z.land (uint64 (data_at uuid 6)) 0xf) 8) in
    let tms := uint64 (tms + uint64 (data_at uuid 7)) in
    let ts :=
      int64 (uint64 (int64 (tms / 10))
             - uint64 (uint64 (uint64 POSTGRES_EPOCH_JDATE - GREGORIAN_EPOCH_JDATE)
                       * SECS_PER_DAY * USECS_PER_SEC)) in
    Some ts
  else None.

(** [uuid_extract_version] *)
Definition uuid_extract_version (uuid : pg_uuid_t) : option Z :=
  if negb (Z.land (data_at uuid 8) 0xc0 =? 0x80) then None
  else Some (Z.shiftr (data_at uuid 6) 4).

(** [uuid_extract_variant] *)
Definition uuid_extract_variant (uuid : pg_uuid_t) : Z :=
  let nibble := Z.shiftr (data_at uuid 8) 4 in
  if nibble <? 8 then 0
  else if nibble <? 0xC then 2
  else if nibble <? 0xE then 6
  else 7.

(** The 48-bit big-endian integer held in bytes 0 to 5. *)
Definition unix_ts_ms (uuid : pg_uuid_t) : Z :=
  data_at uuid 0 * 2 ^ 40 + data_at uuid 1 * 2 ^ 32 + data_at uuid 2 * 2 ^ 24
  + data_at uuid 3 * 2 ^ 16 + data_at uuid 4 * 2 ^ 8 + data_at uuid 5.

(** The variant bits (top two bits of byte 8) and the version nibble
    (top four bits of byte 6). *)
Definition variant_bits (uuid : pg_uuid_t) : Z := Z.shiftr (data_at uuid 8) 6.
Definition version_nibble (uuid : pg_uuid_t) : Z := Z.shiftr (data_at uuid 6) 4.

(** Microseconds from the Unix epoch to the engine's epoch. *)
Definition epoch_shift_us : Z :=
  (POSTGRES_EPOCH_JDATE - UNIX_EPOCH_JDATE) * SECS_PER_DAY * USECS_PER_SEC.

(** The 60-bit count of 100 ns intervals since 1582-10-15 as version 1
    lays it out (time_low in bytes 0 to 3, time_mid in bytes 4 and 5,
    time_hi in the low nibble of byte 6 and byte 7) and as version 6
    does (most significant part first). *)
Definition v1_timestamp (uuid : pg_uuid_t) : Z :=
  ((data_at uuid 6 mod 16) * 2 ^ 8 + data_at uuid 7) * 2 ^ 48
  + (data_at uuid 4 * 2 ^ 8 + data_at uuid 5) * 2 ^ 32
  + (data_at uuid 0 * 2 ^ 24 + data_at uuid 1 * 2 ^ 16
     + data_at uuid 2 * 2 ^ 8 + data_at uuid 3).

Definition v6_timestamp (uuid : pg_uuid_t) : Z :=
  (data_at uuid 0 * 2 ^ 24 + data_at uuid 1 * 2 ^ 16
   + data_at uuid 2 * 2 ^ 8 + data_at uuid 3) * 2 ^ 28
  + (data_at uuid 4 * 2 ^ 8 + data_at uuid 5) * 2 ^ 12
  + ((data_at uuid 6 mod 16) * 2 ^ 8 + data_at uuid 7).

(** Microseconds from the Gregorian epoch to the engine's epoch. *)
Definition gregorian_shift_us : Z :=
  (POSTGRES_EPOCH_JDATE - GREGORIAN_EPOCH_JDATE) * SECS_PER_DAY * USECS_PER_SEC.

End Extract.

(** ** Sample values

    Concrete values on which the statements below are run. *)

Module Sample.

(** 550e8400-e29b-41d4-a716-446655440000 and two values after it. *)
Definition u1 : list Z :=
  [85; 14; 132; 0; 226; 155; 65; 212; 167; 22; 68; 102; 85; 68; 0; 0].
Definition u2 : list Z :=
  [85; 14; 132; 0; 226; 155; 65; 212; 167; 22; 68; 102; 85; 68; 0; 1].
Definition u3 : list Z :=
  [85; 14; 132; 0; 226; 155; 65; 212; 167; 23; 0; 0; 0; 0; 0; 0].

(** c232ab00-9414-11ec-b3c8-9f6bdeced846, a version 1 value. *)
Definition v1 : list Z :=
  [194; 50; 171; 0; 148; 20; 17; 236; 179; 200; 159; 107; 222; 206; 216; 70].

(** 1ec9414c-232a-6b00-b3c8-9f6bdeced846, the same instant in version
    6, and a value 100 ns later. *)
Definition v6 : list Z :=
  [30; 201; 65; 76; 35; 42; 107; 0; 179; 200; 159; 107; 222; 206; 216; 70].
Definition v6_later : list Z :=
  [30; 201; 65; 76; 35; 42; 107; 1; 128; 0; 0; 0; 0; 0; 0; 0].

(** 018f5c2a-3b4d-7abc-9d01-020304050607, a version 7 value, and one
    of the next millisecond. *)
Definition v7 : list Z :=
  [1; 143; 92; 42; 59; 77; 122; 188; 157; 1; 2; 3; 4; 5; 6; 7].
Definition v7_later : list Z :=
  [1; 143; 92; 42; 59; 78; 112; 0; 128; 0; 0; 0; 0; 0; 0; 0].

(** Bytes delivered by the random source. *)
Definition random16 : list Z :=
  [17; 34; 51; 68; 85; 102; 119; 136; 153; 170; 187; 204; 221; 238; 255; 0].
Definition random8 : list Z := [255; 1; 2; 3; 4; 5; 6; 7].
Definition random8' : list Z := [0; 8; 9; 10; 11; 12; 13; 14].

End Sample.

(** * Properties *)

Import Gen Codec SortSupport Extract.

(** ** Bytes *)

Lemma is_ucharb_spec x : is_ucharb x = true <-> is_uchar x.
Proof. unfold is_ucharb, is_uchar. rewrite andb_true_iff. lia. Qed.

Lemma uchar_range x : is_uchar (uchar x).
Proof. unfold is_uchar, uchar. apply Z.mod_pos_bound. lia. Qed.

Lemma uchar_id x : is_uchar x -> uchar x = x.
Proof. unfold is_uchar, uchar. intros Hx. apply Z.mod_small. lia. Qed.

Lemma uint64_range x : 0 <= uint64 x < 2 ^ 64.
Proof. apply Z.mod_pos_bound. lia. Qed.

Lemma uint64_id x : 0 <= x < 2 ^ 64 -> uint64 x = x.
Proof. intros Hx. apply Z.mod_small. lia. Qed.

Lemma uint32_range x : 0 <= uint32 x < 2 ^ 32.
Proof. apply Z.mod_pos_bound. lia. Qed.

Lemma uint32_id x : 0 <= x < 2 ^ 32 -> uint32 x = x.
Proof. intros Hx. apply Z.mod_small. lia. Qed.

(** A boolean property checked on the 256 byte values holds of every
    byte. *)
Lemma forall_uchar (P : Z -> bool) :
  forallb P (map Z.of_nat (seq 0 256)) = true ->
  forall b, is_uchar b -> P b = true.
Proof.
  intros Hall b Hb. rewrite forallb_forall in Hall. apply Hall.
  apply in_map_iff. exists (Z.to_nat b). split.
  - unfold is_uchar in Hb. lia.
  - apply in_seq. unfold is_uchar in Hb. lia.
Qed.

(** ** The generator state *)

Lemma uuidv7_state st tp rnd : fst (uuidv7 st tp rnd) = fst (advance st tp).
Proof.
  unfold uuidv7. destruct (advance st tp) as [st' tms].
  destruct rnd; reflexivity.
Qed.

Lemma advance_tms st tp :
  snd (advance st tp) = previous_timestamp (fst (advance st tp)).
Proof.
  unfold advance. destruct (clock_ms tp <=? previous_timestamp st); reflexivity.
Qed.

Lemma clock_ms_range tp : 0 <= clock_ms tp < 2 ^ 64.
Proof. apply uint64_range. Qed.

Lemma advance_wf st tp : gen_state_wf st -> gen_state_wf (fst (advance st tp)).
Proof.
  unfold gen_state_wf, advance. intros [Hc Ht].
  pose proof (clock_ms_range tp) as Hclock.
  destruct (clock_ms tp <=? previous_timestamp st); cbn.
  - rewrite uint32_id by lia.
    destruct (Z.gtb_spec (sequence_counter st + 1) 0x3ffff); cbn.
    + pose proof (uint64_range (previous_timestamp st + 1)). lia.
    + lia.
  - lia.
Qed.

Lemma uuidv7_wf st tp rnd :
  gen_state_wf st -> gen_state_wf (fst (uuidv7 st tp rnd)).
Proof. rewrite uuidv7_state. apply advance_wf. Qed.

Lemma initial_wf : gen_state_wf initial.
Proof. unfold gen_state_wf, initial; cbn. lia. Qed.

Lemma advance_increases st tp :
  gen_state_wf st -> ~ at_wrap st -> state_lt st (fst (advance st tp)).
Proof.
  unfold gen_state_wf, at_wrap, state_lt, advance. intros [Hc Ht] Hwrap.
  destruct (Z.leb_spec (clock_ms tp) (previous_timestamp st)) as [Hle | Hgt]; cbn.
  - rewrite uint32_id by lia.
    destruct (Z.gtb_spec (sequence_counter st + 1) 0x3ffff) as [Hov | Hin]; cbn.
    + left. rewrite uint64_id by lia. lia.
    + right. lia.
  - left. lia.
Qed.

Lemma state_lt_le a b : state_lt a b -> state_le a b.
Proof. unfold state_lt, state_le. lia. Qed.

Lemma state_le_trans a b c : state_le a b -> state_le b c -> state_le a c.
Proof. unfold state_le. lia. Qed.

(** A stalled clock only moves the counter, as long as it fits. *)
Lemma repeat_call_stalled tp rnd p n : forall c,
  clock_ms tp <= p ->
  0 <= c -> c + Z.of_N n <= 0x3ffff ->
  repeat_call n tp rnd (GenState c p) = GenState (c + Z.of_N n) p.
Proof.
  unfold repeat_call.
  induction n as [| n IH] using N.peano_ind; intros c Hclock Hc Hfit.
  - cbn. f_equal. lia.
  - rewrite N.iter_succ, IH by lia.
    rewrite uuidv7_state. unfold advance; cbn.
    destruct (Z.leb_spec (clock_ms tp) p) as [_ | Hgt]; [| lia].
    rewrite uint32_id by lia.
    destruct (Z.gtb_spec (c + Z.of_N n + 1) 0x3ffff) as [Hov | _]; [lia |].
    cbn. f_equal. lia.
Qed.

(** Across successive calls the pair never goes down, as long as no call
    is made from the wrapping state. *)
Lemma run_states_monotone calls : forall st,
  gen_state_wf st -> never_at_wrap st calls ->
  Forall (state_le st) (run_states st calls).
Proof.
  induction calls as [| [tp rnd] calls IH]; intros st Hwf Hnw; cbn.
  - constructor.
  - destruct Hnw as [Hhere Hrest].
    assert (Hstep : state_le st (fst (uuidv7 st tp rnd))).
    { rewrite uuidv7_state. apply state_lt_le, advance_increases; assumption. }
    constructor; [exact Hstep |].
    specialize (IH _ (uuidv7_wf st tp rnd Hwf) Hrest).
    rewrite Forall_forall in IH |- *.
    intros s Hs. eapply state_le_trans; [exact Hstep | apply IH, Hs].
Qed.

(** ** The generator: byte layout *)

Lemma store_bytes_lookup_lt src : forall (buf : list Z) i j,
  (j < i)%nat -> store_bytes buf i src !! j = buf !! j.
Proof.
  induction src as [| b src IH]; intros buf i j Hj; cbn.
  - reflexivity.
  - rewrite IH by lia. apply list_lookup_insert_ne. lia.
Qed.

Lemma store_bytes_length src : forall (buf : list Z) i,
  length (store_bytes buf i src) = length buf.
Proof.
  induction src as [| b src IH]; intros buf i; cbn; [reflexivity |].
  rewrite IH. apply length_insert.
Qed.

Lemma store_bytes_lookup_first b src (buf : list Z) i :
  (i < length buf)%nat -> store_bytes buf i (b :: src) !! i = Some b.
Proof.
  intros Hi. cbn. rewrite store_bytes_lookup_lt by lia.
  apply list_lookup_insert_eq. exact Hi.
Qed.

Lemma uuidv7_value st tp bytes :
  snd (uuidv7 st tp (Some bytes))
  = Some (v7_value (previous_timestamp (fst (advance st tp)))
            (sequence_counter (fst (advance st tp))) bytes).
Proof.
  unfold uuidv7. rewrite <- advance_tms.
  destruct (advance st tp) as [st' tms]. reflexivity.
Qed.

Lemma v7_value_time tms sc bytes :
  data_at (v7_value tms sc bytes) 0 = uchar (Z.shiftr tms 40)
  /\ data_at (v7_value tms sc bytes) 1 = uchar (Z.shiftr tms 32)
  /\ data_at (v7_value tms sc bytes) 2 = uchar (Z.shiftr tms 24)
  /\ data_at (v7_value tms sc bytes) 3 = uchar (Z.shiftr tms 16)
  /\ data_at (v7_value tms sc bytes) 4 = uchar (Z.shiftr tms 8)
  /\ data_at (v7_value tms sc bytes) 5 = uchar tms.
Proof.
  unfold v7_value, set_version_variant, data_at.
  repeat split;
    (do 2 (rewrite list_lookup_insert_ne by lia);
     rewrite store_bytes_lookup_lt by lia; reflexivity).
Qed.

Lemma v7_value_byte6 tms sc bytes :
  data_at (v7_value tms sc bytes) 6
  = Z.lor (Z.land (uchar (Z.shiftr sc 14)) 0x0f) 0x70.
Proof.
  unfold v7_value, set_version_variant, data_at.
  rewrite list_lookup_insert_ne by lia.
  rewrite list_lookup_insert_eq
    by (rewrite store_bytes_length; cbn; lia).
  rewrite store_bytes_lookup_lt by lia. reflexivity.
Qed.

Lemma v7_value_byte8 tms sc bytes :
  exists x, data_at (v7_value tms sc bytes) 8 = Z.lor (Z.land x 0x3f) 0x80.
Proof.
  unfold v7_value, set_version_variant.
  eexists. unfold data_at at 1.
  rewrite list_lookup_insert_eq
    by (rewrite length_insert, store_bytes_length; cbn; lia).
  reflexivity.
Qed.

(** With at least one random byte delivered, byte 8 is made of the first
    random byte alone: the counter bits stored there before are gone. *)
Lemma v7_value_byte8_random tms sc r bytes :
  data_at (v7_value tms sc (r :: bytes)) 8 = Z.lor (Z.land r 0x3f) 0x80.
Proof.
  unfold v7_value, set_version_variant. unfold data_at at 1.
  rewrite list_lookup_insert_eq
    by (rewrite length_insert, store_bytes_length; cbn; lia).
  cbn -[store_bytes fill_time_and_counter Z.land Z.lor].
  unfold data_at. rewrite list_lookup_insert_ne by lia.
  rewrite store_bytes_lookup_first by (cbn; lia). reflexivity.
Qed.

(** ** Bit fields of a byte *)

Lemma land_63_uchar x : is_uchar (Z.land x 0x3f).
Proof.
  change 0x3f with (Z.ones 6). rewrite Z.land_ones by lia.
  pose proof (Z.mod_pos_bound x (2 ^ 6)). unfold is_uchar. lia.
Qed.

Lemma land_15_uchar x : is_uchar (Z.land x 0x0f).
Proof.
  change 0x0f with (Z.ones 4). rewrite Z.land_ones by lia.
  pose proof (Z.mod_pos_bound x (2 ^ 4)). unfold is_uchar. lia.
Qed.

Lemma variant_set x :
  Z.land (Z.lor (Z.land x 0x3f) 0x80) 0xc0 = 0x80
  /\ Z.shiftr (Z.lor (Z.land x 0x3f) 0x80) 6 = 2
  /\ is_uchar (Z.lor (Z.land x 0x3f) 0x80).
Proof.
  pose proof (forall_uchar
    (fun y => (Z.land (Z.lor (Z.land y 0x3f) 0x80) 0xc0 =? 0x80)
              && (Z.shiftr (Z.lor (Z.land y 0x3f) 0x80) 6 =? 2)
              && is_ucharb (Z.lor (Z.land y 0x3f) 0x80))) as Hall.
  specialize (Hall eq_refl (Z.land x 0x3f) (land_63_uchar x)).
  cbv beta in Hall.
  rewrite <- Z.land_assoc in Hall. change (Z.land 63 63) with 63 in Hall.
  rewrite !andb_true_iff, !Z.eqb_eq, is_ucharb_spec in Hall. tauto.
Qed.

Lemma version_set x :
  Z.land (Z.lor (Z.land x 0x0f) 0x70) 0xf0 = 0x70
  /\ Z.shiftr (Z.lor (Z.land x 0x0f) 0x70) 4 = 7
  /\ is_uchar (Z.lor (Z.land x 0x0f) 0x70).
Proof.
  pose proof (forall_uchar
    (fun y => (Z.land (Z.lor (Z.land y 0x0f) 0x70) 0xf0 =? 0x70)
              && (Z.shiftr (Z.lor (Z.land y 0x0f) 0x70) 4 =? 7)
              && is_ucharb (Z.lor (Z.land y 0x0f) 0x70))) as Hall.
  specialize (Hall eq_refl (Z.land x 0x0f) (land_15_uchar x)).
  cbv beta in Hall.
  rewrite <- Z.land_assoc in Hall. change (Z.land 15 15) with 15 in Hall.
  rewrite !andb_true_iff, !Z.eqb_eq, is_ucharb_spec in Hall. tauto.
Qed.

(** The tests of [uuid_extract_timestamp] read the variant bits and the
    version nibble. *)
Lemma variant_test b :
  is_uchar b -> (Z.land b 0xc0 =? 0x80) = (Z.shiftr b 6 =? 2).
Proof.
  intros Hb.
  pose proof (forall_uchar
    (fun y => Bool.eqb (Z.land y 0xc0 =? 0x80) (Z.shiftr y 6 =? 2))
    eq_refl b Hb) as Hall.
  apply eqb_prop in Hall. exact Hall.
Qed.

Lemma version_test b v :
  is_uchar b -> 0 <= v < 16 ->
  (Z.land b 0xf0 =? v * 16) = (Z.shiftr b 4 =? v).
Proof.
  intros Hb Hv.
  pose proof (forall_uchar
    (fun y => forallb
                (fun w => Bool.eqb (Z.land y 0xf0 =? w * 16) (Z.shiftr y 4 =? w))
                (map Z.of_nat (seq 0 16)))
    eq_refl b Hb) as Hall.
  cbv beta in Hall. rewrite forallb_forall in Hall.
  apply eqb_prop, Hall, in_map_iff. exists (Z.to_nat v). split; [lia |].
  apply in_seq. lia.
Qed.

(** ** Timestamp extraction *)

Lemma data_at_uchar (u : list Z) i : Forall is_uchar u -> is_uchar (data_at u i).
Proof.
  intros Hu. unfold data_at.
  destruct (u !! i) as [b |] eqn:Hb; cbn.
  - rewrite Forall_forall in Hu. apply Hu.
    eapply list_elem_of_lookup_2. exact Hb.
  - unfold is_uchar. lia.
Qed.

Lemma shl64_small b k :
  is_uchar b -> 0 <= k <= 56 -> shl64 b k = b * 2 ^ k.
Proof.
  unfold is_uchar, shl64. intros Hb Hk.
  rewrite (uint64_id b) by lia.
  rewrite Z.shiftl_mul_pow2 by lia.
  apply uint64_id.
  assert (2 ^ k <= 2 ^ 56) by (apply Z.pow_le_mono_r; lia).
  assert (0 < 2 ^ k) by (apply Z.pow_pos_nonneg; lia).
  change (2 ^ 64) with (256 * 2 ^ 56). nia.
Qed.

Lemma int64_id x : - 2 ^ 63 <= x < 2 ^ 63 -> int64 x = x.
Proof. intros Hx. unfold int64. rewrite Z.mod_small; lia. Qed.

Lemma epoch_shift_value :
  int64 (int32 (int32 (POSTGRES_EPOCH_JDATE - UNIX_EPOCH_JDATE) * SECS_PER_DAY)
         * USECS_PER_SEC) = epoch_shift_us
  /\ epoch_shift_us = 946684800000000.
Proof. split; reflexivity. Qed.

Lemma unix_ts_ms_range (u : list Z) :
  Forall is_uchar u -> 0 <= unix_ts_ms u < 2 ^ 48.
Proof.
  intros Hu. unfold unix_ts_ms.
  pose proof (data_at_uchar u 0 Hu). pose proof (data_at_uchar u 1 Hu).
  pose proof (data_at_uchar u 2 Hu). pose proof (data_at_uchar u 3 Hu).
  pose proof (data_at_uchar u 4 Hu). pose proof (data_at_uchar u 5 Hu).
  unfold is_uchar in *. lia.
Qed.

(** The version 7 branch, for a value that passed both tests. *)
Lemma extract_v7 (u : list Z) :
  (forall i, (i < 6)%nat -> is_uchar (data_at u i)) ->
  Z.land (data_at u 8) 0xc0 = 0x80 ->
  Z.land (data_at u 6) 0xf0 = 0x70 ->
  uuid_extract_timestamp u = Some (unix_ts_ms u * 1000 - epoch_shift_us).
Proof.
  intros Hu Hvar Hver. unfold uuid_extract_timestamp.
  rewrite Hvar, Hver. cbn [Z.eqb negb Pos.eqb]. f_equal.
  destruct epoch_shift_value as [-> Hshift].
  unfold unix_ts_ms in *.
  pose proof (Hu 0%nat ltac:(lia)) as H0. pose proof (Hu 1%nat ltac:(lia)) as H1.
  pose proof (Hu 2%nat ltac:(lia)) as H2. pose proof (Hu 3%nat ltac:(lia)) as H3.
  pose proof (Hu 4%nat ltac:(lia)) as H4. pose proof (Hu 5%nat ltac:(lia)) as H5.
  rewrite !shl64_small by (assumption || lia).
  unfold is_uchar in *.
  rewrite (uint64_id (data_at u 5 + _)) by lia.
  rewrite (uint64_id (data_at u 5 + _ + _)) by lia.
  rewrite (uint64_id (data_at u 5 + _ + _ + _)) by lia.
  rewrite (uint64_id (data_at u 5 + _ + _ + _ + _)) by lia.
  rewrite (uint64_id (data_at u 5 + _ + _ + _ + _ + _)) by lia.
  rewrite (uint64_id (_ * 1000)) by lia.
  rewrite (int64_id (_ * 1000)) by lia.
  rewrite Hshift. rewrite int64_id by lia. lia.
Qed.

Lemma extract_absent_variant (u : list Z) :
  Z.land (data_at u 8) 0xc0 <> 0x80 -> uuid_extract_timestamp u = None.
Proof.
  intros Hvar. unfold uuid_extract_timestamp.
  destruct (Z.eqb_spec (Z.land (data_at u 8) 0xc0) 0x80); [contradiction | reflexivity].
Qed.

Lemma extract_absent_version (u : list Z) :
  Z.land (data_at u 6) 0xf0 <> 0x70 ->
  Z.land (data_at u 6) 0xf0 <> 0x10 ->
  Z.land (data_at u 6) 0xf0 <> 0x60 ->
  uuid_extract_timestamp u = None.
Proof.
  intros H7 H1 H6. unfold uuid_extract_timestamp.
  destruct (negb _); [reflexivity |].
  destruct (Z.eqb_spec (Z.land (data_at u 6) 0xf0) 0x70); [contradiction |].
  destruct (Z.eqb_spec (Z.land (data_at u 6) 0xf0) 0x10); [contradiction |].
  destruct (Z.eqb_spec (Z.land (data_at u 6) 0xf0) 0x60); [contradiction |].
  reflexivity.
Qed.

Lemma uuid_wf_bytes (u : list Z) i : uuid_wf u -> is_uchar (data_at u i).
Proof. intros [_ Hu]. apply data_at_uchar, Hu. Qed.

(** The six timestamp bytes hold a 48-bit value exactly. *)
Lemma v7_value_unix_ts_ms tms sc bytes :
  0 <= tms < 2 ^ 48 -> unix_ts_ms (v7_value tms sc bytes) = tms.
Proof.
  intros Ht. unfold unix_ts_ms.
  destruct (v7_value_time tms sc bytes) as (-> & -> & -> & -> & -> & ->).
  unfold uchar. rewrite !Z.shiftr_div_pow2 by lia.
  change (2 ^ 40) with (2 ^ 8 * 2 ^ 32). change (2 ^ 32) with (2 ^ 8 * 2 ^ 24).
  change (2 ^ 24) with (2 ^ 8 * 2 ^ 16). change (2 ^ 16) with (2 ^ 8 * 2 ^ 8).
  rewrite <- !Z.div_div by lia.
  change (2 ^ 8) with 256. change (2 ^ 48) with 281474976710656 in Ht.
  Z.div_mod_to_equations. lia.
Qed.

(** ** The generator: claims *)

(** C3 (as the code has it).  When the clock reading [tms] is strictly
    greater than [previous_timestamp], [previous_timestamp] becomes [tms]
    and [tms] is the effective timestamp; the sequence counter, however,
    is set to zero whatever the random source delivers, not to a random
    18-bit value with its top bit cleared. *)
Theorem uuidv7_clock_advance_zeroes_counter st tp rnd :
  previous_timestamp st < clock_ms tp ->
  fst (uuidv7 st tp rnd) = GenState 0 (clock_ms tp)
  /\ effective_timestamp st tp = clock_ms tp.
Proof.
  intros Hadv. rewrite uuidv7_state. unfold effective_timestamp, advance.
  destruct (Z.leb_spec (clock_ms tp) (previous_timestamp st)); [lia |].
  split; reflexivity.
Qed.

Lemma uuidv7_clock_advance_zeroes_counter_witness :
  previous_timestamp initial < clock_ms (Timeval 1 0)
  /\ fst (uuidv7 initial (Timeval 1 0) (Some (replicate 8 0xff)))
     = GenState 0 (clock_ms (Timeval 1 0))
  /\ effective_timestamp initial (Timeval 1 0) = clock_ms (Timeval 1 0).
Proof.
  assert (Hadv : previous_timestamp initial < clock_ms (Timeval 1 0))
    by (vm_compute; reflexivity).
  split; [exact Hadv |].
  exact (uuidv7_clock_advance_zeroes_counter initial (Timeval 1 0)
           (Some (replicate 8 0xff)) Hadv).
Defined.

(** C5 (amended).  A call of [uuidv7] leaves the pair
    [(previous_timestamp, sequence_counter)] greater than or equal to its
    value before the call, in lexicographic order, for every clock reading
    and every outcome of the random source, unless the call is made with
    [previous_timestamp = 2^64 - 1] and the counter at [0x3ffff], where
    the 64-bit timestamp wraps. *)
Theorem uuidv7_state_monotone st tp rnd :
  gen_state_wf st ->
  ~ at_wrap st ->
  state_le st (fst (uuidv7 st tp rnd))
  /\ gen_state_wf (fst (uuidv7 st tp rnd)).
Proof.
  intros Hwf Hnw. split.
  - rewrite uuidv7_state. apply state_lt_le, advance_increases; assumption.
  - apply uuidv7_wf, Hwf.
Qed.

Lemma uuidv7_state_monotone_witness :
  gen_state_wf (GenState 7 1000)
  /\ ~ at_wrap (GenState 7 1000)
  /\ state_le (GenState 7 1000)
       (fst (uuidv7 (GenState 7 1000) (Timeval 0 999000) (Some (replicate 8 0))))
  /\ gen_state_wf
       (fst (uuidv7 (GenState 7 1000) (Timeval 0 999000) (Some (replicate 8 0)))).
Proof.
  assert (Hwf : gen_state_wf (GenState 7 1000))
    by (unfold gen_state_wf; cbn; lia).
  assert (Hnw : ~ at_wrap (GenState 7 1000))
    by (unfold at_wrap; cbn; lia).
  split; [exact Hwf |]. split; [exact Hnw |].
  exact (uuidv7_state_monotone (GenState 7 1000) (Timeval 0 999000)
           (Some (replicate 8 0)) Hwf Hnw).
Defined.

(** C5 as stated fails: with the clock at the last millisecond a 64-bit
    count can hold, 262144 calls reach the state
    [(2^64 - 1, 0x3ffff)], and the next call takes the pair to [(0, 0)]. *)
Lemma uuidv7_state_wraps_at_uint64_max :
  last_state_before_wrap = GenState 0x3ffff (2 ^ 64 - 1)
  /\ gen_state_wf last_state_before_wrap
  /\ fst (uuidv7 last_state_before_wrap last_clock (Some (replicate 8 0)))
     = GenState 0 0
  /\ ~ state_le last_state_before_wrap
        (fst (uuidv7 last_state_before_wrap last_clock (Some (replicate 8 0)))).
Proof.
  assert (Hst : last_state_before_wrap = GenState 0x3ffff (2 ^ 64 - 1)).
  { unfold last_state_before_wrap.
    replace (fst (uuidv7 initial last_clock (Some (replicate 8 0))))
      with (GenState 0 (2 ^ 64 - 1)) by (vm_compute; reflexivity).
    rewrite repeat_call_stalled by (vm_compute; congruence).
    reflexivity. }
  rewrite Hst. repeat split; try (vm_compute; congruence).
  unfold state_le. vm_compute. intros [H | [H _]]; discriminate H.
Qed.

(** C1 at the failing input.  Two calls in the same millisecond, the first
    with random bytes [0xff], the second with random bytes [0x00]: the
    second value is smaller than the first under [memcmp], although the
    counter went from 0 to 1. *)
Theorem uuidv7_same_millisecond_decreases :
  run_values initial
    [(Timeval 1 0, Some (replicate 8 0xff)); (Timeval 1 0, Some (replicate 8 0))]
  = [Some [0; 0; 0; 0; 3; 232; 0x70; 0; 0xbf; 255; 255; 255; 255; 255; 255; 255];
     Some [0; 0; 0; 0; 3; 232; 0x70; 0; 0x80; 0; 0; 0; 0; 0; 0; 0]]
  /\ run_states initial
       [(Timeval 1 0, Some (replicate 8 0xff)); (Timeval 1 0, Some (replicate 8 0))]
     = [GenState 0 1000; GenState 1 1000]
  /\ uuid_lt [0; 0; 0; 0; 3; 232; 0x70; 0; 0x80; 0; 0; 0; 0; 0; 0; 0]
       [0; 0; 0; 0; 3; 232; 0x70; 0; 0xbf; 255; 255; 255; 255; 255; 255; 255]
     = true.
Proof. vm_compute. repeat split. Qed.

(** C2 at the failing input.  With the counter at 1 and a first random
    byte of [0x00], byte 8 of the value is [0x80]: its low six bits are
    those of the random byte, not those of the counter. *)
Theorem uuidv7_byte8_counter_bits_overwritten :
  uuidv7 (GenState 0 1000) (Timeval 1 0) (Some (replicate 8 0))
  = (GenState 1 1000,
     Some [0; 0; 0; 0; 3; 232; 0x70; 0; 0x80; 0; 0; 0; 0; 0; 0; 0])
  /\ Z.land (data_at [0; 0; 0; 0; 3; 232; 0x70; 0; 0x80; 0; 0; 0; 0; 0; 0; 0] 8)
       0x3f = 0
  /\ Z.land (sequence_counter (GenState 1 1000)) 0x3f = 1.
Proof. vm_compute. repeat split. Qed.

(** What the code does in general: the low six bits of byte 8 are the low
    six bits of the first random byte. *)
Lemma uuidv7_byte8_is_random st tp r bytes :
  exists u, snd (uuidv7 st tp (Some (r :: bytes))) = Some u
    /\ Z.land (data_at u 8) 0x3f = Z.land r 0x3f.
Proof.
  rewrite uuidv7_value. eexists. split; [reflexivity |].
  rewrite v7_value_byte8_random.
  rewrite Z.land_lor_distr_l, <- Z.land_assoc.
  change (Z.land 63 63) with 63. change (Z.land 128 63) with 0.
  apply Z.lor_0_r.
Qed.

(** ** Timestamp extraction: claims *)

(** C9.  [uuid_extract_timestamp] returns the SQL null for every value
    whose variant bits are not [10] or whose version nibble is none of 1,
    6 and 7, the all-zero value among them; for variant [10] and version 7
    it returns the 48-bit big-endian integer of bytes 0 to 5, taken as
    milliseconds since the Unix epoch and moved to the engine's epoch
    without any wrap-around. *)
Theorem uuid_extract_timestamp_dispatch (u : list Z) :
  uuid_wf u ->
  (variant_bits u <> 2
   \/ (version_nibble u <> 1 /\ version_nibble u <> 6 /\ version_nibble u <> 7) ->
   uuid_extract_timestamp u = None)
  /\ (variant_bits u = 2 -> version_nibble u = 7 ->
      uuid_extract_timestamp u = Some (unix_ts_ms u * 1000 - 946684800000000))
  /\ uuid_extract_timestamp (replicate UUID_LEN 0) = None.
Proof.
  intros Hwf.
  pose proof (uuid_wf_bytes u 8 Hwf) as H8.
  pose proof (uuid_wf_bytes u 6 Hwf) as H6.
  pose proof (variant_test _ H8) as Hvar.
  assert (Hver7 : (Z.land (data_at u 6) 0xf0 =? 0x70) = (Z.shiftr (data_at u 6) 4 =? 7))
    by (apply (version_test _ 7 H6); lia).
  assert (Hver1 : (Z.land (data_at u 6) 0xf0 =? 0x10) = (Z.shiftr (data_at u 6) 4 =? 1))
    by (apply (version_test _ 1 H6); lia).
  assert (Hver6 : (Z.land (data_at u 6) 0xf0 =? 0x60) = (Z.shiftr (data_at u 6) 4 =? 6))
    by (apply (version_test _ 6 H6); lia).
  unfold variant_bits, version_nibble.
  split; [| split].
  - intros [Hv | (Hv1 & Hv6 & Hv7)].
    + apply extract_absent_variant. intros Heq.
      apply Z.eqb_eq in Heq. rewrite Hvar in Heq. apply Z.eqb_eq in Heq.
      contradiction.
    + apply extract_absent_version; intros Heq; apply Z.eqb_eq in Heq.
      * rewrite Hver7 in Heq. apply Z.eqb_eq in Heq. contradiction.
      * rewrite Hver1 in Heq. apply Z.eqb_eq in Heq. contradiction.
      * rewrite Hver6 in Heq. apply Z.eqb_eq in Heq. contradiction.
  - intros Hv Hv7.
    destruct epoch_shift_value as [_ <-].
    apply extract_v7.
    + intros i _. apply uuid_wf_bytes, Hwf.
    + apply Z.eqb_eq. rewrite Hvar. apply Z.eqb_eq, Hv.
    + apply Z.eqb_eq. rewrite Hver7. apply Z.eqb_eq, Hv7.
  - reflexivity.
Qed.

Lemma uuid_extract_timestamp_dispatch_witness :
  uuid_wf [1; 0x8f; 0x5c; 0x2a; 0x3b; 0x4d; 0x7a; 0xbc; 0x9d; 1; 2; 3; 4; 5; 6; 7]
  /\ uuid_extract_timestamp
       [1; 0x8f; 0x5c; 0x2a; 0x3b; 0x4d; 0x7a; 0xbc; 0x9d; 1; 2; 3; 4; 5; 6; 7]
     = Some (0x018f5c2a3b4d * 1000 - 946684800000000)
  /\ uuid_wf [1; 0x8f; 0x5c; 0x2a; 0x3b; 0x4d; 0x4a; 0xbc; 0x9d; 1; 2; 3; 4; 5; 6; 7]
  /\ uuid_extract_timestamp
       [1; 0x8f; 0x5c; 0x2a; 0x3b; 0x4d; 0x4a; 0xbc; 0x9d; 1; 2; 3; 4; 5; 6; 7]
     = None.
Proof.
  assert (Hwf7 : uuid_wf
    [1; 0x8f; 0x5c; 0x2a; 0x3b; 0x4d; 0x7a; 0xbc; 0x9d; 1; 2; 3; 4; 5; 6; 7]).
  { split; [reflexivity |]. repeat constructor; unfold is_uchar; lia. }
  assert (Hwf4 : uuid_wf
    [1; 0x8f; 0x5c; 0x2a; 0x3b; 0x4d; 0x4a; 0xbc; 0x9d; 1; 2; 3; 4; 5; 6; 7]).
  { split; [reflexivity |]. repeat constructor; unfold is_uchar; lia. }
  split; [exact Hwf7 |]. split.
  - apply (proj1 (proj2 (uuid_extract_timestamp_dispatch _ Hwf7))); reflexivity.
  - split; [exact Hwf4 |].
    apply (proj1 (uuid_extract_timestamp_dispatch _ Hwf4)).
    right. vm_compute. repeat split; discriminate.
Defined.

(** C10.  For every generator state and clock reading whose effective
    timestamp is below [2^48], and whatever bytes the random source
    delivers, the value [uuidv7] returns has version nibble [0111] and
    variant bits [10], and [uuid_extract_timestamp] gives back, never the
    null, exactly the effective timestamp written into bytes 0 to 5. *)
Theorem uuidv7_extract_timestamp st tp bytes :
  gen_state_wf st ->
  effective_timestamp st tp < 2 ^ 48 ->
  exists u,
    snd (uuidv7 st tp (Some bytes)) = Some u
    /\ version_nibble u = 7
    /\ variant_bits u = 2
    /\ unix_ts_ms u = effective_timestamp st tp
    /\ uuid_extract_timestamp u
       = Some (effective_timestamp st tp * 1000 - epoch_shift_us).
Proof.
  intros Hwf Hbound. unfold effective_timestamp in *.
  rewrite advance_tms in *.
  pose proof (advance_wf st tp Hwf) as [_ Hpt].
  rewrite uuidv7_value.
  set (tms := previous_timestamp (fst (advance st tp))) in *.
  set (sc := sequence_counter (fst (advance st tp))).
  exists (v7_value tms sc bytes). split; [reflexivity |].
  assert (Hts : unix_ts_ms (v7_value tms sc bytes) = tms)
    by (apply v7_value_unix_ts_ms; lia).
  destruct (v7_value_byte8 tms sc bytes) as [x H8].
  pose proof (v7_value_byte6 tms sc bytes) as H6.
  destruct (variant_set x) as (Hvar & Hvarb & _).
  destruct (version_set (uchar (Z.shiftr sc 14))) as (Hver & Hverb & _).
  unfold version_nibble, variant_bits. rewrite H6, H8.
  repeat split; try assumption.
  rewrite extract_v7; [rewrite Hts; reflexivity | | |].
  - intros i Hi. destruct (v7_value_time tms sc bytes) as (E0 & E1 & E2 & E3 & E4 & E5).
    destruct i as [| [| [| [| [| [| i]]]]]]; try lia;
      [rewrite E0 | rewrite E1 | rewrite E2 | rewrite E3 | rewrite E4 | rewrite E5];
      apply uchar_range.
  - rewrite H8. exact Hvar.
  - rewrite H6. exact Hver.
Qed.

Lemma uuidv7_extract_timestamp_witness :
  gen_state_wf (GenState 5 1700000000000)
  /\ effective_timestamp (GenState 5 1700000000000) (Timeval 1600000000 0) < 2 ^ 48
  /\ exists u,
       snd (uuidv7 (GenState 5 1700000000000) (Timeval 1600000000 0)
              (Some [1; 2; 3; 4; 5; 6; 7; 8])) = Some u
       /\ version_nibble u = 7
       /\ variant_bits u = 2
       /\ unix_ts_ms u
          = effective_timestamp (GenState 5 1700000000000) (Timeval 1600000000 0)
       /\ uuid_extract_timestamp u
          = Some (effective_timestamp (GenState 5 1700000000000)
                    (Timeval 1600000000 0) * 1000 - epoch_shift_us).
Proof.
  assert (Hwf : gen_state_wf (GenState 5 1700000000000))
    by (unfold gen_state_wf; cbn; lia).
  assert (Hb : effective_timestamp (GenState 5 1700000000000)
                 (Timeval 1600000000 0) < 2 ^ 48)
    by (vm_compute; reflexivity).
  split; [exact Hwf |]. split; [exact Hb |].
  exact (uuidv7_extract_timestamp (GenState 5 1700000000000)
           (Timeval 1600000000 0) [1; 2; 3; 4; 5; 6; 7; 8] Hwf Hb).
Defined.

(** ** Sort support: the abort callback *)

Section AbortCallback.
  Context `{Estimator}.

Lemma abort_not_estimating memtupcount (uss : uuid_sortsupport_state) :
  estimating uss = false -> uuid_abbrev_abort memtupcount uss = (false, uss).
Proof.
  intros Hest. unfold uuid_abbrev_abort. rewrite Hest.
  rewrite orb_true_r. reflexivity.
Qed.

Lemma sort_step_keeps_off t (uss : uuid_sortsupport_state) c :
  estimating uss = false -> estimating (sort_step t uss c) = false.
Proof.
  intros Hest. destruct c as [original | memtupcount]; cbn.
  - exact Hest.
  - rewrite abort_not_estimating by exact Hest. exact Hest.
Qed.

Lemma sort_run_keeps_off t calls : forall uss : uuid_sortsupport_state,
  estimating uss = false -> estimating (sort_run t uss calls) = false.
Proof.
  unfold sort_run.
  induction calls as [| c calls IH]; intros uss Hest; cbn.
  - exact Hest.
  - apply IH, sort_step_keeps_off, Hest.
Qed.

(** C7.  [uuid_abbrev_abort] answers false while fewer than 10000 rows
    are buffered, or fewer than 10000 inputs were converted, or estimating
    is off.  Past that, an estimate above 100000 turns estimating off and
    the answer is false, now and at every later call of the sort;
    otherwise the answer is true exactly when the estimate is below
    [input_count / 2000.0 + 0.5], computed in [double] as the code does. *)
Theorem uuid_abbrev_abort_decision memtupcount (uss : uuid_sortsupport_state) :
  (memtupcount < 10000 \/ input_count uss < 10000 \/ estimating uss = false ->
   uuid_abbrev_abort memtupcount uss = (false, uss))
  /\ (10000 <= memtupcount -> 10000 <= input_count uss -> estimating uss = true ->
      PrimFloat.ltb 100000 (estimateHyperLogLog (abbr_card uss)) = true ->
      uuid_abbrev_abort memtupcount uss
      = (false, SortState (input_count uss) false (abbr_card uss))
      /\ forall t calls m,
           fst (uuid_abbrev_abort m
                  (sort_run t (snd (uuid_abbrev_abort memtupcount uss)) calls))
           = false)
  /\ (10000 <= memtupcount -> 10000 <= input_count uss -> estimating uss = true ->
      PrimFloat.ltb 100000 (estimateHyperLogLog (abbr_card uss)) = false ->
      uuid_abbrev_abort memtupcount uss
      = (PrimFloat.ltb (estimateHyperLogLog (abbr_card uss))
           (PrimFloat.add
              (PrimFloat.div (PrimFloat.of_uint63 (Uint63.of_Z (input_count uss)))
                 2000)
              0.5),
         uss)).
Proof.
  split; [| split].
  - intros Hlow. unfold uuid_abbrev_abort.
    destruct (Z.ltb_spec memtupcount 10000); [reflexivity |].
    destruct (Z.ltb_spec (input_count uss) 10000); [reflexivity |].
    destruct Hlow as [Hm | [Hi | He]]; [lia | lia |].
    rewrite He. reflexivity.
  - intros Hm Hi He Hhigh.
    assert (Hcall : uuid_abbrev_abort memtupcount uss
                    = (false, SortState (input_count uss) false (abbr_card uss))).
    { unfold uuid_abbrev_abort.
      destruct (Z.ltb_spec memtupcount 10000); [lia |].
      destruct (Z.ltb_spec (input_count uss) 10000); [lia |].
      rewrite He. cbn [negb orb]. rewrite Hhigh. reflexivity. }
    split; [exact Hcall |].
    intros t calls m. rewrite Hcall. cbn [snd].
    rewrite abort_not_estimating; [reflexivity |].
    apply sort_run_keeps_off. reflexivity.
  - intros Hm Hi He Hnot. unfold uuid_abbrev_abort.
    destruct (Z.ltb_spec memtupcount 10000); [lia |].
    destruct (Z.ltb_spec (input_count uss) 10000); [lia |].
    rewrite He. cbn [negb orb]. rewrite Hnot.
    unfold int64_to_double.
    destruct (Z.ltb_spec (input_count uss) 0); [lia |].
    match goal with |- context [if ?c then _ else _] => destruct c end;
      reflexivity.
Qed.

End AbortCallback.

Lemma uuid_abbrev_abort_decision_witness :
  uuid_abbrev_abort 9999 (fixed_state 20000 true 1%float)
  = (false, fixed_state 20000 true 1%float)
  /\ uuid_abbrev_abort 20000 (fixed_state 20000 true 200000.5%float)
     = (false, fixed_state 20000 false 200000.5%float)
  /\ uuid_abbrev_abort 20000 (fixed_state 20000 true 10.25%float)
     = (true, fixed_state 20000 true 10.25%float)
  /\ uuid_abbrev_abort 20000 (fixed_state 20000 true 10.5%float)
     = (false, fixed_state 20000 true 10.5%float).
Proof.
  split; [| split; [| split]].
  - apply (proj1 (uuid_abbrev_abort_decision (H := fixed_estimator) 9999
                    (fixed_state 20000 true 1%float))).
    left. lia.
  - apply (proj1 (proj2 (uuid_abbrev_abort_decision (H := fixed_estimator) 20000
                           (fixed_state 20000 true 200000.5%float))));
      cbn; try lia; reflexivity.
  - rewrite (proj2 (proj2 (uuid_abbrev_abort_decision (H := fixed_estimator) 20000
                           (fixed_state 20000 true 10.25%float))));
      cbn; try lia; reflexivity.
  - rewrite (proj2 (proj2 (uuid_abbrev_abort_decision (H := fixed_estimator) 20000
                           (fixed_state 20000 true 10.5%float))));
      cbn; try lia; reflexivity.
Defined.

(** ** Sort support: abbreviated keys *)

Lemma to_bytes_le_from_bytes_le bs :
  Forall is_uchar bs -> to_bytes_le (length bs) (from_bytes_le bs) = bs.
Proof.
  induction 1 as [| b bs Hb _ IH]; cbn [length to_bytes_le from_bytes_le].
  - reflexivity.
  - unfold is_uchar in Hb. f_equal.
    + Z.div_mod_to_equations. lia.
    + replace ((b + 256 * from_bytes_le bs) / 256) with (from_bytes_le bs);
        [exact IH | Z.div_mod_to_equations; lia].
Qed.

Lemma from_bytes_le_app xs ys :
  from_bytes_le (xs ++ ys)
  = from_bytes_le xs + 256 ^ Z.of_nat (length xs) * from_bytes_le ys.
Proof.
  induction xs as [| x xs IH]; cbn [app length from_bytes_le].
  - cbn. lia.
  - rewrite IH, Nat2Z.inj_succ, Z.pow_succ_r by lia. lia.
Qed.

Lemma from_bytes_be_cons b bs :
  from_bytes_be (b :: bs) = b * 256 ^ Z.of_nat (length bs) + from_bytes_be bs.
Proof.
  unfold from_bytes_be. cbn [rev]. rewrite from_bytes_le_app, length_rev.
  cbn [from_bytes_le]. lia.
Qed.

Lemma from_bytes_be_range bs :
  Forall is_uchar bs -> 0 <= from_bytes_be bs < 256 ^ Z.of_nat (length bs).
Proof.
  induction 1 as [| b bs Hb _ IH].
  - cbn. lia.
  - rewrite from_bytes_be_cons. cbn [length].
    rewrite Nat2Z.inj_succ, Z.pow_succ_r by lia.
    unfold is_uchar in Hb. nia.
Qed.

Lemma load_then_native t bs :
  Forall is_uchar bs -> length bs = SIZEOF_DATUM t ->
  DatumBigEndianToNative t (load t bs) = from_bytes_be bs.
Proof.
  intros Hbs Hlen. unfold DatumBigEndianToNative, load.
  destruct (order t); [| reflexivity].
  unfold pg_bswap. rewrite <- Hlen, to_bytes_le_from_bytes_le by exact Hbs.
  reflexivity.
Qed.

Lemma cmp_prefix n : forall a b : list Z,
  (n <= length a)%nat -> (n <= length b)%nat ->
  Forall is_uchar a -> Forall is_uchar b ->
  Z.sgn (ssup_datum_unsigned_cmp (from_bytes_be (take n a)) (from_bytes_be (take n b)))
  = Z.sgn (memcmp a b n)
  /\ (from_bytes_be (take n a) = from_bytes_be (take n b) <-> take n a = take n b).
Proof.
  induction n as [| n IH]; intros a b Hla Hlb Ha Hb.
  - rewrite !take_0. split; [reflexivity | tauto].
  - destruct a as [| x a]; [cbn in Hla; lia |].
    destruct b as [| y b]; [cbn in Hlb; lia |].
    cbn in Hla, Hlb.
    apply Forall_cons in Ha as [Hx Ha]. apply Forall_cons in Hb as [Hy Hb].
    destruct (IH a b ltac:(lia) ltac:(lia) Ha Hb) as [IHs IHe].
    cbn [firstn memcmp]. rewrite !from_bytes_be_cons.
    assert (Hta : Forall is_uchar (take n a)) by (apply Forall_take, Ha).
    assert (Htb : Forall is_uchar (take n b)) by (apply Forall_take, Hb).
    pose proof (from_bytes_be_range _ Hta) as Ra.
    pose proof (from_bytes_be_range _ Htb) as Rb.
    rewrite !length_take in *.
    replace (n `min` length a)%nat with n in * by lia.
    replace (n `min` length b)%nat with n in * by lia.
    set (va := from_bytes_be (take n a)) in *.
    set (vb := from_bytes_be (take n b)) in *.
    set (p := 256 ^ Z.of_nat n) in *.
    unfold is_uchar in Hx, Hy.
    destruct (Z.eqb_spec x y) as [-> | Hne].
    + split.
      * rewrite <- IHs. unfold ssup_datum_unsigned_cmp.
        destruct (Z.ltb_spec (y * p + va) (y * p + vb));
          destruct (Z.ltb_spec va vb); try lia;
          destruct (Z.gtb_spec (y * p + va) (y * p + vb));
          destruct (Z.gtb_spec va vb); try lia; reflexivity.
      * split.
        -- intros Heq. f_equal. apply IHe. lia.
        -- intros Heq. inversion Heq as [Heq']. apply IHe in Heq'. lia.
    + split.
      * unfold ssup_datum_unsigned_cmp.
        destruct (Z.ltb_spec (x * p + va) (y * p + vb));
          [| destruct (Z.gtb_spec (x * p + va) (y * p + vb))];
          cbn; nia.
      * split.
        -- intros Heq. exfalso. nia.
        -- intros Heq. inversion Heq. contradiction.
Qed.

Section AbbreviatedKeys.
  Context `{Estimator}.

(** The abbreviated key is the leading [SIZEOF_DATUM] bytes read as a
    big-endian number, on every target. *)
Lemma uuid_abbrev_convert_value t (u : list Z) (uss : uuid_sortsupport_state) :
  uuid_wf u ->
  fst (uuid_abbrev_convert t u uss) = from_bytes_be (take (SIZEOF_DATUM t) u).
Proof.
  intros [Hlen Hu]. unfold uuid_abbrev_convert. cbn [fst].
  apply load_then_native.
  - apply Forall_take, Hu.
  - rewrite length_take, Hlen. unfold SIZEOF_DATUM, UUID_LEN.
    destruct (datum t); reflexivity.
Qed.

(** C8.  [uuid_abbrev_convert] preserves order: comparing the words it
    returns for [a] and [b] as unsigned integers gives the same three-way
    result as [memcmp] over their first [SIZEOF_DATUM] bytes, and the two
    words are equal exactly when those prefixes are the same bytes. *)
Theorem uuid_abbrev_convert_order t (a b : list Z)
  (ussa ussb : uuid_sortsupport_state) :
  uuid_wf a -> uuid_wf b ->
  Z.sgn (ssup_datum_unsigned_cmp (fst (uuid_abbrev_convert t a ussa))
           (fst (uuid_abbrev_convert t b ussb)))
  = Z.sgn (memcmp a b (SIZEOF_DATUM t))
  /\ (fst (uuid_abbrev_convert t a ussa) = fst (uuid_abbrev_convert t b ussb)
      <-> take (SIZEOF_DATUM t) a = take (SIZEOF_DATUM t) b).
Proof.
  intros Ha Hb.
  rewrite !uuid_abbrev_convert_value by assumption.
  destruct Ha as [Hla Ha], Hb as [Hlb Hb].
  apply cmp_prefix; try assumption.
  - rewrite Hla. unfold SIZEOF_DATUM, UUID_LEN. destruct (datum t); lia.
  - rewrite Hlb. unfold SIZEOF_DATUM, UUID_LEN. destruct (datum t); lia.
Qed.

End AbbreviatedKeys.

Lemma uuid_abbrev_convert_order_witness :
  uuid_wf [1; 2; 3; 4; 5; 6; 7; 8; 9; 10; 11; 12; 13; 14; 15; 16]
  /\ uuid_wf [1; 2; 3; 4; 5; 6; 7; 200; 0; 0; 0; 0; 0; 0; 0; 0]
  /\ Z.sgn (ssup_datum_unsigned_cmp
              (fst (uuid_abbrev_convert (Target Datum8 LittleEndian)
                      [1; 2; 3; 4; 5; 6; 7; 8; 9; 10; 11; 12; 13; 14; 15; 16]
                      (fixed_state 0 true 0%float)))
              (fst (uuid_abbrev_convert (Target Datum8 LittleEndian)
                      [1; 2; 3; 4; 5; 6; 7; 200; 0; 0; 0; 0; 0; 0; 0; 0]
                      (fixed_state 1 true 0%float))))
     = Z.sgn (memcmp [1; 2; 3; 4; 5; 6; 7; 8; 9; 10; 11; 12; 13; 14; 15; 16]
                [1; 2; 3; 4; 5; 6; 7; 200; 0; 0; 0; 0; 0; 0; 0; 0] 8).
Proof.
  assert (Ha : uuid_wf [1; 2; 3; 4; 5; 6; 7; 8; 9; 10; 11; 12; 13; 14; 15; 16]).
  { split; [reflexivity |]. repeat constructor; unfold is_uchar; lia. }
  assert (Hb : uuid_wf [1; 2; 3; 4; 5; 6; 7; 200; 0; 0; 0; 0; 0; 0; 0; 0]).
  { split; [reflexivity |]. repeat constructor; unfold is_uchar; lia. }
  split; [exact Ha |]. split; [exact Hb |].
  exact (proj1 (uuid_abbrev_convert_order (H := fixed_estimator)
                  (Target Datum8 LittleEndian) _ _
                  (fixed_state 0 true 0%float) (fixed_state 1 true 0%float)
                  Ha Hb)).
Defined.

(** ** Text input and output *)

Lemma hex_pair b : is_uchar b -> hex_pair_ok b = true.
Proof. apply forall_uchar. vm_compute. reflexivity. Qed.

Lemma hex_pair_facts b :
  is_uchar b ->
  Ascii.eqb (hex_hi b) NUL = false /\ Ascii.eqb (hex_lo b) NUL = false
  /\ isxdigit (hex_hi b) = true /\ isxdigit (hex_lo b) = true
  /\ Ascii.eqb (hex_hi b) "-" = false /\ Ascii.eqb (hex_hi b) "{" = false
  /\ is_lower_hex (hex_hi b) = true /\ is_lower_hex (hex_lo b) = true
  /\ uchar (strtoul16 0 (String (hex_hi b) (String (hex_lo b) EmptyString))) = b.
Proof.
  intros Hb. pose proof (hex_pair b Hb) as Hok. unfold hex_pair_ok in Hok.
  rewrite !andb_true_iff, !negb_true_iff, Z.eqb_eq in Hok. tauto.
Qed.

Lemma loop_step n i b rest (buf : list Z) :
  is_uchar b ->
  string_to_uuid_loop (S n) i (String (hex_hi b) (String (hex_lo b) rest)) buf
  = string_to_uuid_loop n (S i)
      (if Ascii.eqb (char_at rest 0) "-" && hyphen_allowed i
       then ptr_add rest 1 else rest)
      (<[i := b]> buf).
Proof.
  intros Hb.
  destruct (hex_pair_facts b Hb) as (N1 & N2 & X1 & X2 & _ & _ & _ & _ & V).
  cbn [string_to_uuid_loop].
  change (char_at (String (hex_hi b) (String (hex_lo b) rest)) 0) with (hex_hi b).
  change (char_at (String (hex_hi b) (String (hex_lo b) rest)) 1) with (hex_lo b).
  rewrite N1, N2. cbn [orb].
  change (char_at (String (hex_hi b) (String (hex_lo b) EmptyString)) 0) with (hex_hi b).
  change (char_at (String (hex_hi b) (String (hex_lo b) EmptyString)) 1) with (hex_lo b).
  rewrite X1, X2. cbn [negb orb].
  rewrite V.
  change (ptr_add (String (hex_hi b) (String (hex_lo b) rest)) 2) with rest.
  unfold hyphen_allowed. rewrite andb_assoc. reflexivity.
Qed.

Lemma loop_stuck_on_hyphen n i rest (buf : list Z) :
  string_to_uuid_loop (S n) i (String "-" rest) buf = None.
Proof.
  cbn [string_to_uuid_loop].
  change (char_at (String "-" rest) 0) with "-"%char.
  destruct (Ascii.eqb "-" NUL || Ascii.eqb (char_at (String "-" rest) 1) NUL);
    reflexivity.
Qed.

Lemma hyphenated_loop_step h n i (v : list Z) :
  hyphenated_loop h (S n) i v
  = String (hex_hi (data_at v i))
      (String (hex_lo (data_at v i))
         (if h i then String "-" (hyphenated_loop h n (S i) v)
          else hyphenated_loop h n (S i) v)).
Proof. reflexivity. Qed.

Lemma hyphenated_loop_head h n i (v : list Z) :
  Forall is_uchar v ->
  Ascii.eqb (char_at (hyphenated_loop h n i v) 0) "-" = false.
Proof.
  intros Hv. destruct n as [| n].
  - reflexivity.
  - rewrite hyphenated_loop_step.
    change (char_at (String ?c _) 0) with c.
    apply (hex_pair_facts _ (data_at_uchar v i Hv)).
Qed.

Lemma take_S_insert (buf : list Z) i x :
  (i < length buf)%nat -> take (S i) (<[i := x]> buf) = take i buf ++ [x].
Proof.
  intros Hi.
  rewrite (take_S_r _ i x) by (apply list_lookup_insert_eq, Hi).
  rewrite take_insert_ge by lia. reflexivity.
Qed.

Lemma loop_hyphenated h (v : list Z) :
  Forall is_uchar v -> length v = UUID_LEN ->
  forall n i (buf : list Z),
    (i + n = UUID_LEN)%nat -> length buf = UUID_LEN ->
    if forallb (fun j => implb (h j) (hyphen_allowed j)) (seq i n)
    then string_to_uuid_loop n i (hyphenated_loop h n i v) buf
         = Some (EmptyString, take i buf ++ drop i v)
    else stuck_on_hyphen (string_to_uuid_loop n i (hyphenated_loop h n i v) buf).
Proof.
  intros Hv Hlen. induction n as [| n IH]; intros i buf Hi Hbuf.
  - cbn. rewrite take_ge, drop_ge by lia. rewrite app_nil_r. reflexivity.
  - cbn [seq forallb]. rewrite hyphenated_loop_step.
    pose proof (data_at_uchar v i Hv) as Hb.
    assert (Hvi : v !! i = Some (data_at v i)).
    { unfold data_at. destruct (v !! i) eqn:E; [reflexivity |].
      apply lookup_ge_None in E. lia. }
    assert (Hnext : take (S i) (<[i := data_at v i]> buf) ++ drop (S i) v
                    = take i buf ++ drop i v).
    { rewrite take_S_insert by lia. rewrite <- app_assoc. cbn [app].
      rewrite <- (drop_S _ _ _ Hvi). reflexivity. }
    specialize (IH (S i) (<[i := data_at v i]> buf) ltac:(lia)
                  ltac:(rewrite length_insert; exact Hbuf)).
    rewrite Hnext in IH.
    destruct (h i) eqn:Hh; cbn [implb].
    + rewrite loop_step by exact Hb.
      change (char_at (String "-" ?s) 0) with "-"%char.
      change (Ascii.eqb "-" "-") with true. cbn [andb].
      destruct (hyphen_allowed i) eqn:Hal; cbn [andb].
      * change (ptr_add (String "-" ?s) 1) with s. exact IH.
      * destruct n as [| n].
        -- cbn. reflexivity.
        -- rewrite loop_stuck_on_hyphen. exact I.
    + rewrite loop_step by exact Hb.
      rewrite hyphenated_loop_head by exact Hv. cbn [andb]. exact IH.
Qed.

Lemma uuid_in_hyphenated h (v : list Z) :
  uuid_wf v ->
  uuid_in (hyphenated h v)
  = if hyphens_allowed h then Parsed v
    else InvalidTextRepresentation (hyphenated h v).
Proof.
  intros [Hlen Hv].
  pose proof (loop_hyphenated h v Hv Hlen UUID_LEN 0%nat (palloc UUID_LEN)
                eq_refl eq_refl) as Hloop.
  unfold uuid_in, string_to_uuid.
  assert (Hbrace : Ascii.eqb (char_at (hyphenated h v) 0) "{" = false).
  { unfold hyphenated, UUID_LEN. rewrite hyphenated_loop_step.
    change (char_at (String ?c _) 0) with c.
    apply (hex_pair_facts _ (data_at_uchar v 0 Hv)). }
  rewrite Hbrace. fold (hyphenated h v) in Hloop.
  unfold hyphens_allowed.
  destruct (forallb _ _).
  - rewrite Hloop. cbn. rewrite drop_0. reflexivity.
  - revert Hloop.
    destruct (string_to_uuid_loop _ _ _ _) as [[s u] |]; [| reflexivity].
    cbn. intros ->. reflexivity.
Qed.

Lemma uuid_out_loop_hyphenated (v : list Z) n : forall i,
  (i + n = UUID_LEN)%nat ->
  uuid_out_loop n i v
  = if ((i =? 4) || (i =? 6) || (i =? 8) || (i =? 10))%nat
    then String "-" (hyphenated_loop output_hyphen n i v)
    else hyphenated_loop output_hyphen n i v.
Proof.
  induction n as [| n IH]; intros i Hi.
  - replace i with UUID_LEN by lia. reflexivity.
  - cbn [uuid_out_loop]. rewrite hyphenated_loop_step.
    rewrite (IH (S i)) by lia.
    change (output_hyphen i)
      with ((S i =? 4) || (S i =? 6) || (S i =? 8) || (S i =? 10))%nat.
    reflexivity.
Qed.

Lemma uuid_out_hyphenated (v : list Z) : uuid_out v = hyphenated output_hyphen v.
Proof. unfold uuid_out. rewrite uuid_out_loop_hyphenated; reflexivity. Qed.

Lemma is_lower_hex_hi b : is_uchar b -> is_lower_hex (hex_hi b) = true.
Proof. intros Hb. apply (hex_pair_facts b Hb). Qed.

Lemma is_lower_hex_lo b : is_uchar b -> is_lower_hex (hex_lo b) = true.
Proof. intros Hb. apply (hex_pair_facts b Hb). Qed.

Lemma uuid_out_canonical (v : list Z) :
  uuid_wf v -> is_canonical (uuid_out v) = true /\ String.length (uuid_out v) = 36%nat.
Proof.
  intros [Hlen Hv].
  do 16 (destruct v as [| ? v]; [discriminate Hlen |]).
  destruct v; [| discriminate Hlen].
  repeat match goal with
         | Hf : Forall _ (_ :: _) |- _ => apply Forall_cons in Hf as [? Hf]
         end.
  rewrite uuid_out_hyphenated.
  unfold hyphenated, UUID_LEN. rewrite !hyphenated_loop_step.
  cbn [hyphenated_loop output_hyphen Nat.eqb orb].
  change (data_at ?l ?k) with (default 0 (l !! k)).
  cbn [lookup list_lookup default from_option].
  split; [| reflexivity].
  unfold is_canonical. cbn [canonical_from Nat.eqb orb].
  rewrite !is_lower_hex_hi, !is_lower_hex_lo by assumption.
  reflexivity.
Qed.

Lemma char_at_0_cons c s : char_at (String c s) 0 = c.
Proof. reflexivity. Qed.

Lemma char_at_1_cons c d s : char_at (String c (String d s)) 1 = d.
Proof. reflexivity. Qed.

Lemma loop_inv n i src (buf : list Z) :
  string_to_uuid_loop (S n) i src buf <> None ->
  exists c0 c1 rest,
    src = String c0 (String c1 rest)
    /\ isxdigit c0 = true /\ isxdigit c1 = true
    /\ string_to_uuid_loop (S n) i src buf
       = string_to_uuid_loop n (S i)
           (if Ascii.eqb (char_at rest 0) "-" && hyphen_allowed i
            then ptr_add rest 1 else rest)
           (<[i := uchar (strtoul16 0 (String c0 (String c1 EmptyString)))]> buf).
Proof.
  intros Hok. cbn [string_to_uuid_loop] in *.
  destruct src as [| c0 [| c1 rest]].
  - exfalso. apply Hok. reflexivity.
  - exfalso. apply Hok.
    change (char_at (String c0 "") 1) with NUL.
    rewrite orb_true_r. reflexivity.
  - exists c0, c1, rest. split; [reflexivity |].
    rewrite !char_at_0_cons, !char_at_1_cons in *.
    destruct (Ascii.eqb c0 NUL || Ascii.eqb c1 NUL); [contradiction |].
    destruct (isxdigit c0); [| contradiction].
    destruct (isxdigit c1); [| contradiction].
    cbn [negb orb] in *.
    change (ptr_add (String c0 (String c1 rest)) 2) with rest.
    unfold hyphen_allowed. rewrite andb_assoc. auto.
Qed.

Lemma split_cons_not_hyphen c X pre post :
  Ascii.eqb c "-" = false ->
  String c X = (pre ++ String "-" post)%string ->
  exists pre', pre = String c pre' /\ X = (pre' ++ String "-" post)%string.
Proof.
  intros Hc Heq. destruct pre as [| d pre']; cbn in Heq.
  - inversion Heq; subst. rewrite Ascii.eqb_refl in Hc. discriminate.
  - inversion Heq; subst. eauto.
Qed.

Lemma isxdigit_not_hyphen c : isxdigit c = true -> Ascii.eqb c "-" = false.
Proof.
  intros Hx. destruct (Ascii.eqb_spec c "-") as [-> |]; [| reflexivity].
  discriminate Hx.
Qed.

Lemma loop_hyphens n : forall i src (buf : list Z) src' buf' pre post,
  string_to_uuid_loop n i src buf = Some (src', buf') ->
  src = (pre ++ String "-" post)%string ->
  hyphen_accounted i n pre post src'.
Proof.
  induction n as [| n IH]; intros i src buf src' buf' pre post Hloop Hsplit.
  - cbn in Hloop. inversion Hloop; subst. left. exists EmptyString, pre. auto.
  - destruct (loop_inv n i src buf) as (c0 & c1 & rest & -> & X0 & X1 & Hstep).
    { rewrite Hloop. discriminate. }
    rewrite Hstep in Hloop. clear Hstep.
    apply split_cons_not_hyphen in Hsplit as (pre1 & -> & Hsplit);
      [| apply isxdigit_not_hyphen, X0].
    apply split_cons_not_hyphen in Hsplit as (pre2 & -> & Hsplit);
      [| apply isxdigit_not_hyphen, X1].
    assert (Hshift : forall pre3,
      hyphen_accounted (S i) n pre3 post src' ->
      count_xdigits pre2 = count_xdigits pre3 ->
      (exists u, pre2 = (u ++ pre3)%string) ->
      hyphen_accounted i (S n) (String c0 (String c1 pre2)) post src').
    { intros pre3 [(used & pre' & Hp & Hs) | (j & Hj & Hal & Hc)] Hcount [u Hu].
      - left. exists (String c0 (String c1 (u ++ used))), pre'. split; [| exact Hs].
        cbn. rewrite Hu, Hp. f_equal. f_equal.
        clear. induction u as [| a u IHu]; cbn; [reflexivity | f_equal; exact IHu].
      - right. exists j. split; [lia |]. split; [exact Hal |].
        cbn [count_xdigits]. rewrite X0, X1, Hcount, Hc. lia. }
    destruct (Ascii.eqb (char_at rest 0) "-" && hyphen_allowed i) eqn:Htake.
    + apply andb_true_iff in Htake as [Hhy Hal].
      destruct rest as [| d rest1]; [discriminate Hhy |].
      rewrite char_at_0_cons in Hhy. apply Ascii.eqb_eq in Hhy. subst d.
      change (ptr_add (String "-" rest1) 1) with rest1 in Hloop.
      destruct pre2 as [| d pre3]; cbn in Hsplit.
      * right. exists i. split; [lia |]. split; [exact Hal |].
        cbn [count_xdigits]. rewrite X0, X1. cbn. lia.
      * inversion Hsplit; subst d.
        apply (Hshift pre3).
        -- eapply IH; eassumption.
        -- reflexivity.
        -- exists (String "-" EmptyString). reflexivity.
    + apply (Hshift pre2).
      * eapply IH; eassumption.
      * reflexivity.
      * exists EmptyString. reflexivity.
Qed.

Lemma no_nul_app a b : no_nul (a ++ b)%string = no_nul a && no_nul b.
Proof.
  induction a as [| c a IH]; cbn; [reflexivity |].
  rewrite IH, andb_assoc. reflexivity.
Qed.

(** The remainder after the loop cannot hold a hyphen of the C string:
    it must start with the terminator, or with a closing brace followed
    by the terminator. *)
Lemma remainder_has_no_hyphen (braces : bool) pre used pre' post src' :
  no_nul pre = true ->
  pre = (used ++ pre')%string ->
  src' = (pre' ++ String "-" post)%string ->
  (braces && negb (Ascii.eqb (char_at src' 0) "}")
   || negb (Ascii.eqb (char_at (if braces then ptr_add src' 1 else src') 0) NUL))
  = true.
Proof.
  intros Hnn -> ->. rewrite no_nul_app in Hnn.
  apply andb_true_iff in Hnn as [_ Hnn].
  destruct pre' as [| c pre'']; cbn [String.append].
  - destruct braces; reflexivity.
  - cbn [no_nul] in Hnn. apply andb_true_iff in Hnn as [Hc Hnn].
    rewrite char_at_0_cons.
    destruct braces; cbn [andb orb].
    + destruct (Ascii.eqb c "}"); [| reflexivity]. cbn [negb orb].
      change (ptr_add (String c ?s) 1) with s.
      destruct pre'' as [| d pre3]; cbn [String.append]; [reflexivity |].
      rewrite char_at_0_cons. cbn [no_nul] in Hnn.
      apply andb_true_iff in Hnn as [Hd _]. exact Hd.
    + exact Hc.
Qed.

Lemma allowed_digit_counts j :
  (j < UUID_LEN)%nat -> hyphen_allowed j = true ->
  In (2 * (j + 1))%nat [4; 8; 12; 16; 20; 24; 28]%nat.
Proof.
  unfold UUID_LEN. intros Hj Hal.
  do 16 (destruct j as [| j]; [first [discriminate Hal | cbn; tauto] |]).
  lia.
Qed.

Lemma uuid_in_hyphen_places pre post (v : list Z) :
  no_nul pre = true ->
  uuid_in (pre ++ String "-" post) = Parsed v ->
  In (count_xdigits pre) [4; 8; 12; 16; 20; 24; 28]%nat.
Proof.
  intros Hnn. unfold uuid_in, string_to_uuid.
  set (s := (pre ++ String "-" post)%string).
  assert (Hsrc : exists pre0 (braces : bool),
    (if Ascii.eqb (char_at s 0) "{" then (ptr_add s 1, true) else (s, false))
    = ((pre0 ++ String "-" post)%string, braces)
    /\ no_nul pre0 = true /\ count_xdigits pre0 = count_xdigits pre).
  { destruct (Ascii.eqb (char_at s 0) "{") eqn:Hb.
    - subst s. destruct pre as [| c pre0]; [discriminate Hb |].
      cbn [String.append] in *. rewrite char_at_0_cons in Hb.
      apply Ascii.eqb_eq in Hb. subst c.
      exists pre0, true. cbn [no_nul] in Hnn.
      apply andb_true_iff in Hnn as [_ Hnn]. repeat split; auto.
    - exists pre, false. auto. }
  destruct Hsrc as (pre0 & braces & -> & Hnn0 & <-).
  destruct (string_to_uuid_loop UUID_LEN 0 _ _) as [[src' u] |] eqn:Hloop;
    [| discriminate].
  pose proof (loop_hyphens _ _ _ _ _ _ pre0 post Hloop eq_refl) as Hacc.
  destruct Hacc as [(used & pre' & Hp & Hs) | (j & Hj & Hal & Hc)].
  - pose proof (remainder_has_no_hyphen braces pre0 used pre' post src' Hnn0 Hp Hs)
      as Hrem.
    destruct (braces && negb (Ascii.eqb (char_at src' 0) "}")); [discriminate |].
    cbn [orb] in Hrem. rewrite Hrem. discriminate.
  - intros _. rewrite Hc. replace (j - 0 + 1)%nat with (j + 1)%nat by lia.
    apply allowed_digit_counts; [lia | exact Hal].
Qed.

(** C4 (amended).  [string_to_uuid] takes an optional hyphen after byte
    [i] exactly for odd [i] below 15, that is after bytes 1, 3, 5, 7, 9,
    11 and 13 (after each group of four digits but the last).  A text of
    32 digits with single hyphens after some of its bytes is read back as
    the value of its digits when every hyphen stands at such a place, and
    is a syntax error otherwise; and in every text that is accepted, each
    hyphen has 4, 8, 12, 16, 20, 24 or 28 hexadecimal digits before it. *)
Theorem string_to_uuid_hyphen_positions :
  (forall h (v : list Z),
     uuid_wf v ->
     uuid_in (hyphenated h v)
     = (if hyphens_allowed h then Parsed v
        else InvalidTextRepresentation (hyphenated h v))
     /\ (hyphens_allowed h = true
         <-> forall i, (i < UUID_LEN)%nat -> h i = true ->
                       In i [1; 3; 5; 7; 9; 11; 13]%nat))
  /\ (forall pre post (v : list Z),
        no_nul pre = true ->
        uuid_in (pre ++ String "-" post) = Parsed v ->
        In (count_xdigits pre) [4; 8; 12; 16; 20; 24; 28]%nat).
Proof.
  split; [| exact uuid_in_hyphen_places].
  intros h v Hwf. split; [apply uuid_in_hyphenated, Hwf |].
  unfold hyphens_allowed. rewrite forallb_forall. split.
  - intros Hall i Hi Hh.
    specialize (Hall i ltac:(apply in_seq; lia)). rewrite Hh in Hall.
    cbn [implb] in Hall. unfold UUID_LEN in Hi.
    do 16 (destruct i as [| i]; [first [discriminate Hall | cbn; tauto] |]).
    lia.
  - intros Hpos i Hi. apply in_seq in Hi.
    destruct (h i) eqn:Hh; [| reflexivity].
    specialize (Hpos i ltac:(lia) Hh). cbn [implb].
    cbn in Hpos. intuition (subst; reflexivity).
Qed.

Lemma string_to_uuid_hyphen_positions_witness :
  uuid_wf [1; 35; 69; 103; 137; 171; 205; 239; 1; 35; 69; 103; 137; 171; 205; 239]
  /\ hyphenated (fun i => Nat.eqb i 1)
       [1; 35; 69; 103; 137; 171; 205; 239; 1; 35; 69; 103; 137; 171; 205; 239]
     = "0123-456789abcdef0123456789abcdef"%string
  /\ uuid_in (hyphenated (fun i => Nat.eqb i 1)
       [1; 35; 69; 103; 137; 171; 205; 239; 1; 35; 69; 103; 137; 171; 205; 239])
     = Parsed [1; 35; 69; 103; 137; 171; 205; 239; 1; 35; 69; 103; 137; 171; 205; 239]
  /\ no_nul "{0123ABCD" = true
  /\ uuid_in ("{0123ABCD" ++ String "-" "4567-89ab-cdef-0123456789ab}")
     = Parsed [1; 35; 171; 205; 69; 103; 137; 171; 205; 239; 1; 35; 69; 103; 137; 171]
  /\ In (count_xdigits "{0123ABCD") [4; 8; 12; 16; 20; 24; 28]%nat.
Proof.
  assert (Hwf : uuid_wf
    [1; 35; 69; 103; 137; 171; 205; 239; 1; 35; 69; 103; 137; 171; 205; 239]).
  { split; [reflexivity |]. repeat constructor; unfold is_uchar; lia. }
  assert (Hnn : no_nul "{0123ABCD" = true) by reflexivity.
  assert (Hin : uuid_in ("{0123ABCD" ++ String "-" "4567-89ab-cdef-0123456789ab}")
                = Parsed [1; 35; 171; 205; 69; 103; 137; 171; 205; 239;
                          1; 35; 69; 103; 137; 171])
    by (vm_compute; reflexivity).
  split; [exact Hwf |]. split; [reflexivity |]. split.
  - rewrite (proj1 (proj1 string_to_uuid_hyphen_positions
                      (fun i => Nat.eqb i 1) _ Hwf)).
    reflexivity.
  - split; [exact Hnn |]. split; [exact Hin |].
    exact (proj2 string_to_uuid_hyphen_positions _ _ _ Hnn Hin).
Defined.

(** C4 as stated fails: a hyphen after only four digits is taken, and the
    text is read; a loop that took hyphens after bytes 3, 5, 7 and 9
    only would reject it. *)
Lemma string_to_uuid_hyphen_after_four_digits :
  uuid_in "0123-456789abcdef0123456789abcdef"
  = Parsed [1; 35; 69; 103; 137; 171; 205; 239; 1; 35; 69; 103; 137; 171; 205; 239]
  /\ canonical_hyphen_loop UUID_LEN 0 "0123-456789abcdef0123456789abcdef"
       (palloc UUID_LEN) = None.
Proof. split; vm_compute; reflexivity. Qed.

(** C6.  For every value [v], [uuid_out] prints 36 characters, lowercase
    digits in groups of 8, 4, 4, 4 and 12 with a hyphen between the
    groups and no braces, and [uuid_in] reads that text back as [v]. *)
Theorem uuid_out_in_roundtrip (v : list Z) :
  uuid_wf v ->
  String.length (uuid_out v) = 36%nat
  /\ is_canonical (uuid_out v) = true
  /\ uuid_in (uuid_out v) = Parsed v.
Proof.
  intros Hwf. destruct (uuid_out_canonical v Hwf) as [Hcanon Hlen].
  split; [exact Hlen |]. split; [exact Hcanon |].
  rewrite uuid_out_hyphenated, uuid_in_hyphenated by exact Hwf.
  reflexivity.
Qed.

Lemma uuid_out_in_roundtrip_witness :
  uuid_wf [85; 14; 132; 0; 226; 155; 65; 212; 167; 22; 68; 102; 85; 68; 0; 0]
  /\ uuid_out [85; 14; 132; 0; 226; 155; 65; 212; 167; 22; 68; 102; 85; 68; 0; 0]
     = "550e8400-e29b-41d4-a716-446655440000"%string
  /\ uuid_in (uuid_out [85; 14; 132; 0; 226; 155; 65; 212; 167; 22; 68; 102; 85; 68; 0; 0])
     = Parsed [85; 14; 132; 0; 226; 155; 65; 212; 167; 22; 68; 102; 85; 68; 0; 0].
Proof.
  assert (Hwf : uuid_wf
    [85; 14; 132; 0; 226; 155; 65; 212; 167; 22; 68; 102; 85; 68; 0; 0]).
  { split; [reflexivity |]. repeat constructor; unfold is_uchar; lia. }
  split; [exact Hwf |]. split; [reflexivity |].
  exact (proj2 (proj2 (uuid_out_in_roundtrip _ Hwf))).
Defined.

(** * Further properties of [uuid.c] *)

(** ** Ordering *)

Lemma memcmp_zero_iff n : forall a b : list Z,
  (n <= length a)%nat -> (n <= length b)%nat ->
  memcmp a b n = 0 <-> take n a = take n b.
Proof.
  induction n as [| n IH]; intros a b Ha Hb.
  - rewrite !take_0. cbn. tauto.
  - destruct a as [| x a]; [cbn in Ha; lia |].
    destruct b as [| y b]; [cbn in Hb; lia |].
    cbn in Ha, Hb. cbn [memcmp firstn].
    destruct (Z.eqb_spec x y) as [-> | Hne].
    + rewrite IH by lia. split; [intros ->; reflexivity | intros Heq; inversion Heq; reflexivity].
    + split; [lia | intros Heq; inversion Heq; contradiction].
Qed.

Lemma memcmp_swap n : forall a b : list Z, memcmp b a n = - memcmp a b n.
Proof.
  induction n as [| n IH]; intros a b; [reflexivity |].
  destruct a as [| x a], b as [| y b]; try reflexivity.
  cbn [memcmp]. rewrite (Z.eqb_sym y x).
  destruct (x =? y); [apply IH | lia].
Qed.

Lemma memcmp_lt_trans n : forall a b c : list Z,
  memcmp a b n < 0 -> memcmp b c n < 0 -> memcmp a c n < 0.
Proof.
  induction n as [| n IH]; intros a b c Hab Hbc; [cbn in Hab; lia |].
  destruct a as [| x a]; [cbn in Hab; lia |].
  destruct b as [| y b]; [cbn in Hab; lia |].
  destruct c as [| z c]; [cbn in Hbc; lia |].
  cbn [memcmp] in *.
  destruct (Z.eqb_spec x y) as [-> | Hxy];
    destruct (Z.eqb_spec y z) as [-> | Hyz].
  - eapply IH; eassumption.
  - exact Hbc.
  - destruct (Z.eqb_spec x z); [contradiction | exact Hab].
  - destruct (Z.eqb_spec x z); lia.
Qed.

Lemma memcmp_le_trans n : forall a b c : list Z,
  (n <= length a)%nat -> (n <= length b)%nat -> (n <= length c)%nat ->
  memcmp a b n <= 0 -> memcmp b c n <= 0 -> memcmp a c n <= 0.
Proof.
  intros a b c Ha Hb Hc Hab Hbc.
  destruct (Z.eq_dec (memcmp a b n) 0) as [E1 | N1];
    destruct (Z.eq_dec (memcmp b c n) 0) as [E2 | N2].
  - apply memcmp_zero_iff in E1, E2; try lia.
    assert (E : memcmp a c n = 0) by (apply memcmp_zero_iff; [lia | lia | congruence]).
    lia.
  - apply memcmp_zero_iff in E1; try lia.
    assert (Hac : memcmp a c n = memcmp b c n).
    { clear - E1 Ha Hb. revert a b c Ha Hb E1.
      induction n as [| n IH]; intros a b c Ha Hb E1; [reflexivity |].
      destruct a as [| x a]; [cbn in Ha; lia |].
      destruct b as [| y b]; [cbn in Hb; lia |].
      cbn [firstn] in E1. inversion E1; subst.
      destruct c as [| z c]; [reflexivity |]. cbn [memcmp].
      destruct (y =? z); [| reflexivity].
      apply IH; cbn in *; [lia | lia | assumption]. }
    lia.
  - apply memcmp_zero_iff in E2; try lia.
    assert (Hac : memcmp a c n = memcmp a b n).
    { clear - E2 Hb Hc. revert a b c Hb Hc E2.
      induction n as [| n IH]; intros a b c Hb Hc E2; [reflexivity |].
      destruct b as [| y b]; [cbn in Hb; lia |].
      destruct c as [| z c]; [cbn in Hc; lia |].
      cbn [firstn] in E2. inversion E2; subst.
      destruct a as [| x a]; [reflexivity |]. cbn [memcmp].
      destruct (x =? z); [| reflexivity].
      apply IH; cbn in *; [lia | lia | assumption]. }
    lia.
  - assert (memcmp a c n < 0) by (apply (memcmp_lt_trans n a b c); lia). lia.
Qed.

Lemma take_all_uuid (u : list Z) : length u = UUID_LEN -> take UUID_LEN u = u.
Proof. intros Hlen. apply take_ge. lia. Qed.

(** X1.  [uuid_eq] answers true exactly when the two values are the
    same sixteen bytes, and [uuid_ne] exactly when they are not. *)
Theorem uuid_eq_iff_same_bytes (a b : list Z) :
  length a = UUID_LEN -> length b = UUID_LEN ->
  (uuid_eq a b = true <-> a = b) /\ (uuid_ne a b = true <-> a <> b).
Proof.
  intros Ha Hb.
  assert (Hz : uuid_internal_cmp a b = 0 <-> a = b).
  { unfold uuid_internal_cmp. rewrite memcmp_zero_iff by lia.
    rewrite !take_all_uuid by assumption. tauto. }
  unfold uuid_eq, uuid_ne. rewrite negb_true_iff, Z.eqb_eq, Z.eqb_neq. tauto.
Qed.

(** X2.  Swapping the arguments negates [uuid_cmp]; so [uuid_lt a b]
    is [uuid_gt b a], [uuid_le a b] is [uuid_ge b a], and [uuid_eq] is
    symmetric. *)
Theorem uuid_cmp_mirror (a b : list Z) :
  uuid_cmp b a = - uuid_cmp a b
  /\ uuid_lt a b = uuid_gt b a
  /\ uuid_le a b = uuid_ge b a
  /\ uuid_eq a b = uuid_eq b a.
Proof.
  unfold uuid_cmp, uuid_lt, uuid_gt, uuid_le, uuid_ge, uuid_eq, uuid_internal_cmp.
  rewrite (memcmp_swap UUID_LEN a b).
  set (c := memcmp a b UUID_LEN). repeat split.
  - destruct (Z.ltb_spec c 0), (Z.gtb_spec (- c) 0); lia || reflexivity.
  - destruct (Z.leb_spec c 0), (Z.geb_spec (- c) 0); lia || reflexivity.
  - destruct (Z.eqb_spec c 0), (Z.eqb_spec (- c) 0); lia || reflexivity.
Qed.

(** X3.  [uuid_lt] and [uuid_le] are transitive. *)
Theorem uuid_order_transitive (a b c : list Z) :
  length a = UUID_LEN -> length b = UUID_LEN -> length c = UUID_LEN ->
  (uuid_lt a b = true -> uuid_lt b c = true -> uuid_lt a c = true)
  /\ (uuid_le a b = true -> uuid_le b c = true -> uuid_le a c = true).
Proof.
  intros Ha Hb Hc. unfold uuid_lt, uuid_le, uuid_internal_cmp.
  rewrite !Z.ltb_lt, !Z.leb_le. split.
  - apply memcmp_lt_trans.
  - apply memcmp_le_trans; lia.
Qed.

(** X4.  The order is total and strict: of [uuid_lt a b], [a = b] and
    [uuid_lt b a] exactly one holds. *)
Theorem uuid_order_total (a b : list Z) :
  length a = UUID_LEN -> length b = UUID_LEN ->
  (uuid_lt a b = true /\ a <> b /\ uuid_lt b a = false)
  \/ (uuid_lt a b = false /\ a = b /\ uuid_lt b a = false)
  \/ (uuid_lt a b = false /\ a <> b /\ uuid_lt b a = true).
Proof.
  intros Ha Hb.
  assert (Hz : uuid_internal_cmp a b = 0 <-> a = b).
  { unfold uuid_internal_cmp. rewrite memcmp_zero_iff by lia.
    rewrite !take_all_uuid by assumption. tauto. }
  unfold uuid_lt, uuid_internal_cmp in *.
  rewrite (memcmp_swap UUID_LEN a b).
  destruct (Z.ltb_spec (memcmp a b UUID_LEN) 0);
    destruct (Z.ltb_spec (- memcmp a b UUID_LEN) 0); try lia.
  - left. repeat split. intros Heq. apply Hz in Heq. lia.
  - right. right. repeat split. intros Heq. apply Hz in Heq. lia.
  - right. left. repeat split. apply Hz. lia.
Qed.

Lemma unsigned_cmp_sgn x y : Z.sgn (ssup_datum_unsigned_cmp x y) = Z.sgn (x - y).
Proof.
  unfold ssup_datum_unsigned_cmp.
  destruct (Z.ltb_spec x y); [| destruct (Z.gtb_spec x y)]; cbn; lia.
Qed.

Lemma memcmp_split n m : forall a b : list Z,
  (n <= length a)%nat -> (n <= length b)%nat ->
  memcmp a b (n + m)
  = if memcmp a b n =? 0 then memcmp (drop n a) (drop n b) m else memcmp a b n.
Proof.
  induction n as [| n IH]; intros a b Ha Hb.
  - cbn. rewrite !drop_0. reflexivity.
  - destruct a as [| x a]; [cbn in Ha; lia |].
    destruct b as [| y b]; [cbn in Hb; lia |].
    cbn in Ha, Hb. cbn [Nat.add memcmp skipn].
    destruct (Z.eqb_spec x y) as [-> | Hne].
    + apply IH; lia.
    + destruct (Z.eqb_spec (x - y) 0); [lia | reflexivity].
Qed.

(** X5.  [uuid_cmp] orders values as 128-bit big-endian numbers: its
    sign is the sign of the difference of the two numbers, byte 0 being
    the most significant. *)
Theorem uuid_cmp_big_endian (a b : list Z) :
  uuid_wf a -> uuid_wf b ->
  Z.sgn (uuid_cmp a b) = Z.sgn (from_bytes_be a - from_bytes_be b).
Proof.
  intros [Hla Ha] [Hlb Hb].
  destruct (cmp_prefix UUID_LEN a b ltac:(lia) ltac:(lia) Ha Hb) as [Hs _].
  rewrite unsigned_cmp_sgn in Hs.
  rewrite !take_ge in Hs by lia. symmetry. exact Hs.
Qed.

Section KeysAndComparator.
  Context `{Estimator}.

(** X6.  The abbreviated keys never contradict the authoritative
    comparator: a smaller (larger) key means [uuid_fast_cmp] is negative
    (positive), and for equal keys [uuid_fast_cmp] is [memcmp] over the
    bytes after the first [SIZEOF_DATUM]. *)
Theorem abbreviated_order_agrees t (a b : list Z)
  (ussa ussb : uuid_sortsupport_state) :
  uuid_wf a -> uuid_wf b ->
  (fst (uuid_abbrev_convert t a ussa) < fst (uuid_abbrev_convert t b ussb) ->
   uuid_fast_cmp a b < 0)
  /\ (fst (uuid_abbrev_convert t a ussa) > fst (uuid_abbrev_convert t b ussb) ->
      uuid_fast_cmp a b > 0)
  /\ (fst (uuid_abbrev_convert t a ussa) = fst (uuid_abbrev_convert t b ussb) ->
      uuid_fast_cmp a b
      = memcmp (drop (SIZEOF_DATUM t) a) (drop (SIZEOF_DATUM t) b)
          (UUID_LEN - SIZEOF_DATUM t)).
Proof.
  intros Hwa Hwb.
  rewrite !uuid_abbrev_convert_value by assumption.
  destruct Hwa as [Hla Ha], Hwb as [Hlb Hb].
  assert (Hw : (SIZEOF_DATUM t <= UUID_LEN)%nat)
    by (unfold SIZEOF_DATUM, UUID_LEN; destruct (datum t); lia).
  destruct (cmp_prefix (SIZEOF_DATUM t) a b ltac:(lia) ltac:(lia) Ha Hb)
    as [Hs He].
  rewrite unsigned_cmp_sgn in Hs.
  unfold uuid_fast_cmp, uuid_internal_cmp.
  replace UUID_LEN with (SIZEOF_DATUM t + (UUID_LEN - SIZEOF_DATUM t))%nat at 1 2 3
    by lia.
  rewrite memcmp_split by lia.
  set (ka := from_bytes_be (take (SIZEOF_DATUM t) a)) in *.
  set (kb := from_bytes_be (take (SIZEOF_DATUM t) b)) in *.
  destruct (Z.eqb_spec (memcmp a b (SIZEOF_DATUM t)) 0) as [Hz | Hnz].
  - rewrite Hz in Hs. cbn in Hs. repeat split; intros; lia.
  - repeat split; intros Hk.
    + lia.
    + lia.
    + rewrite Hk, Z.sub_diag in Hs. cbn in Hs. lia.
Qed.

End KeysAndComparator.

Section SortState.
  Context `{Estimator}.

Lemma abort_frame memtupcount (uss : uuid_sortsupport_state) :
  input_count (snd (uuid_abbrev_abort memtupcount uss)) = input_count uss
  /\ abbr_card (snd (uuid_abbrev_abort memtupcount uss)) = abbr_card uss
  /\ (estimating (snd (uuid_abbrev_abort memtupcount uss)) = true ->
      estimating uss = true)
  /\ (fst (uuid_abbrev_abort memtupcount uss) = true ->
      snd (uuid_abbrev_abort memtupcount uss) = uss /\ estimating uss = true
      /\ 10000 <= memtupcount /\ 10000 <= input_count uss).
Proof.
  unfold uuid_abbrev_abort.
  destruct (Z.ltb_spec memtupcount 10000) as [Hm | Hm]; cbn [orb];
    [cbn; repeat split; intros; first [assumption | reflexivity | congruence] |].
  destruct (Z.ltb_spec (input_count uss) 10000) as [Hi | Hi]; cbn [orb];
    [cbn; repeat split; intros; first [assumption | reflexivity | congruence] |].
  destruct (estimating uss) eqn:He; cbn [negb];
    [| cbn; repeat split; intros; first [assumption | reflexivity | congruence]].
  destruct (PrimFloat.ltb 100000 _);
    [cbn; repeat split; intros; first [assumption | reflexivity | congruence] |].
  match goal with |- context [if ?c then _ else _] => destruct c end;
    cbn; repeat split; intros;
    first [assumption | reflexivity | congruence | lia].
Qed.

Lemma sort_step_count t (uss : uuid_sortsupport_state) c :
  0 <= input_count uss -> input_count uss + 1 < 2 ^ 63 ->
  input_count (sort_step t uss c)
  = input_count uss + (if is_convert c then 1 else 0).
Proof.
  intros Hlo Hhi. destruct c as [original | memtupcount]; cbn.
  - apply int64_id. lia.
  - rewrite (proj1 (abort_frame memtupcount uss)). lia.
Qed.

Lemma converted_cons c calls :
  converted (c :: calls) = (if is_convert c then 1 else 0) + converted calls.
Proof. reflexivity. Qed.

Lemma converted_nonneg calls : 0 <= converted calls.
Proof.
  induction calls as [| c calls IH]; cbn [converted]; [lia |].
  destruct (is_convert c); lia.
Qed.

Lemma sort_run_count t calls : forall uss : uuid_sortsupport_state,
  0 <= input_count uss -> input_count uss + converted calls < 2 ^ 63 ->
  input_count (sort_run t uss calls) = input_count uss + converted calls.
Proof.
  unfold sort_run.
  induction calls as [| c calls IH]; intros uss Hlo Hhi.
  - cbn. lia.
  - rewrite converted_cons in *. pose proof (converted_nonneg calls).
    cbn [fold_left].
    assert (Hstep : input_count (sort_step t uss c)
                    = input_count uss + (if is_convert c then 1 else 0)).
    { destruct (is_convert c) eqn:Hc.
      - rewrite sort_step_count, Hc by lia. reflexivity.
      - destruct c; [discriminate |]. cbn.
        rewrite (proj1 (abort_frame _ uss)). lia. }
    rewrite IH; rewrite Hstep; destruct (is_convert c); lia.
Qed.

(** X7.  From the state [uuid_sortsupport] sets up, [input_count] is the
    number of values converted so far, whatever else was called; so
    [uuid_abbrev_abort] answers false as long as fewer than 10000 values
    were converted, however many rows the caller reports. *)
Theorem no_abort_before_10000_values t calls memtupcount :
  converted calls < 10000 ->
  input_count (sort_run t uuid_sortsupport_init calls) = converted calls
  /\ fst (uuid_abbrev_abort memtupcount (sort_run t uuid_sortsupport_init calls))
     = false.
Proof.
  intros Hfew.
  assert (Hcount : input_count (sort_run t uuid_sortsupport_init calls)
                   = converted calls).
  { rewrite sort_run_count; cbn; lia. }
  split; [exact Hcount |].
  unfold uuid_abbrev_abort. rewrite Hcount.
  destruct (Z.ltb_spec (converted calls) 10000); [| lia].
  rewrite orb_true_r. reflexivity.
Qed.

Lemma sort_step_frozen t (uss : uuid_sortsupport_state) c :
  estimating uss = false ->
  abbr_card (sort_step t uss c) = abbr_card uss.
Proof.
  intros He. destruct c as [original | memtupcount]; cbn.
  - rewrite He. reflexivity.
  - apply abort_frame.
Qed.

(** X8.  Once estimating is off, no later call of the sort turns it on
    again or touches the estimator: its state stays as it was. *)
Theorem estimator_frozen_once_off t calls : forall uss : uuid_sortsupport_state,
  estimating uss = false ->
  estimating (sort_run t uss calls) = false
  /\ abbr_card (sort_run t uss calls) = abbr_card uss.
Proof.
  unfold sort_run.
  induction calls as [| c calls IH]; intros uss He; [auto |].
  cbn [fold_left].
  destruct (IH (sort_step t uss c) (sort_step_keeps_off t uss c He)) as [IHe IHc].
  split; [exact IHe |].
  rewrite IHc. apply sort_step_frozen, He.
Qed.

(** X9.  [uuid_abbrev_abort] never changes [input_count] or the
    estimator and never turns estimating on; and when it answers true the
    state is untouched, estimating was on, and at least 10000 rows and
    10000 inputs were seen. *)
Theorem uuid_abbrev_abort_frame memtupcount (uss : uuid_sortsupport_state) :
  input_count (snd (uuid_abbrev_abort memtupcount uss)) = input_count uss
  /\ abbr_card (snd (uuid_abbrev_abort memtupcount uss)) = abbr_card uss
  /\ (estimating (snd (uuid_abbrev_abort memtupcount uss)) = true ->
      estimating uss = true)
  /\ (fst (uuid_abbrev_abort memtupcount uss) = true ->
      snd (uuid_abbrev_abort memtupcount uss) = uss /\ estimating uss = true
      /\ 10000 <= memtupcount /\ 10000 <= input_count uss).
Proof. apply abort_frame. Qed.

End SortState.

(** ** The generators *)

Lemma version4_set b :
  is_uchar b ->
  is_uchar (Z.lor (Z.land b 0x0f) 0x40)
  /\ Z.shiftr (Z.lor (Z.land b 0x0f) 0x40) 4 = 4
  /\ Z.land (Z.lor (Z.land b 0x0f) 0x40) 0xf0 = 0x40
  /\ Z.lor (Z.land b 0x0f) 0x40 mod 16 = b mod 16.
Proof.
  intros Hb.
  pose proof (forall_uchar
    (fun y => is_ucharb (Z.lor (Z.land y 0x0f) 0x40)
              && (Z.shiftr (Z.lor (Z.land y 0x0f) 0x40) 4 =? 4)
              && (Z.land (Z.lor (Z.land y 0x0f) 0x40) 0xf0 =? 0x40)
              && (Z.lor (Z.land y 0x0f) 0x40 mod 16 =? y mod 16))
    eq_refl b Hb) as Hall.
  cbv beta in Hall.
  rewrite !andb_true_iff, !Z.eqb_eq, is_ucharb_spec in Hall. tauto.
Qed.

Lemma variant_set_byte b :
  is_uchar b ->
  is_uchar (Z.lor (Z.land b 0x3f) 0x80)
  /\ Z.land (Z.lor (Z.land b 0x3f) 0x80) 0xc0 = 0x80
  /\ 8 <= Z.shiftr (Z.lor (Z.land b 0x3f) 0x80) 4 < 12
  /\ Z.lor (Z.land b 0x3f) 0x80 mod 64 = b mod 64.
Proof.
  intros Hb.
  pose proof (forall_uchar
    (fun y => is_ucharb (Z.lor (Z.land y 0x3f) 0x80)
              && (Z.land (Z.lor (Z.land y 0x3f) 0x80) 0xc0 =? 0x80)
              && (8 <=? Z.shiftr (Z.lor (Z.land y 0x3f) 0x80) 4)
              && (Z.shiftr (Z.lor (Z.land y 0x3f) 0x80) 4 <? 12)
              && (Z.lor (Z.land y 0x3f) 0x80 mod 64 =? y mod 64))
    eq_refl b Hb) as Hall.
  cbv beta in Hall.
  rewrite !andb_true_iff, !Z.eqb_eq, is_ucharb_spec, Z.leb_le, Z.ltb_lt in Hall.
  tauto.
Qed.

Lemma random_bytes_16 bytes :
  random_bytes 16 bytes ->
  exists b0 b1 b2 b3 b4 b5 b6 b7 b8 b9 b10 b11 b12 b13 b14 b15,
    bytes = [b0; b1; b2; b3; b4; b5; b6; b7; b8; b9; b10; b11; b12; b13; b14; b15]
    /\ Forall is_uchar bytes.
Proof.
  intros [Hlen Hb].
  do 16 (destruct bytes as [| ? bytes]; [discriminate Hlen |]).
  destruct bytes; [| discriminate Hlen].
  repeat eexists. exact Hb.
Qed.

Lemma random_bytes_8 bytes :
  random_bytes 8 bytes ->
  exists b0 b1 b2 b3 b4 b5 b6 b7,
    bytes = [b0; b1; b2; b3; b4; b5; b6; b7] /\ Forall is_uchar bytes.
Proof.
  intros [Hlen Hb].
  do 8 (destruct bytes as [| ? bytes]; [discriminate Hlen |]).
  destruct bytes; [| discriminate Hlen].
  repeat eexists. exact Hb.
Qed.

(** The value [gen_random_uuid] builds from sixteen delivered bytes. *)
Lemma gen_random_uuid_value b0 b1 b2 b3 b4 b5 b6 b7 b8 b9 b10 b11 b12 b13 b14 b15 :
  gen_random_uuid
    (Some [b0; b1; b2; b3; b4; b5; b6; b7; b8; b9; b10; b11; b12; b13; b14; b15])
  = Some [b0; b1; b2; b3; b4; b5; Z.lor (Z.land b6 0x0f) 0x40; b7;
          Z.lor (Z.land b8 0x3f) 0x80; b9; b10; b11; b12; b13; b14; b15].
Proof. reflexivity. Qed.

Ltac split_bytes H :=
  repeat match type of H with
         | Forall _ (_ :: _) =>
             let Hx := fresh "Hb" in
             apply Forall_cons in H as [Hx H]
         end.

(** X10.  Whatever sixteen bytes the random source delivers,
    [gen_random_uuid] returns a well-formed value of version 4 and variant
    [10]: [uuid_extract_version] gives 4, [uuid_extract_variant] gives 2,
    and [uuid_extract_timestamp] gives the null. *)
Theorem gen_random_uuid_is_version_4 bytes :
  random_bytes 16 bytes ->
  exists u,
    gen_random_uuid (Some bytes) = Some u
    /\ uuid_wf u
    /\ uuid_extract_version u = Some 4
    /\ uuid_extract_variant u = 2
    /\ uuid_extract_timestamp u = None.
Proof.
  intros Hr.
  destruct (random_bytes_16 bytes Hr)
    as (b0 & b1 & b2 & b3 & b4 & b5 & b6 & b7 & b8 & b9 & b10 & b11 & b12
        & b13 & b14 & b15 & -> & Hb).
  split_bytes Hb.
  rewrite gen_random_uuid_value. eexists. split; [reflexivity |].
  destruct (version4_set b6 ltac:(assumption)) as (V1 & V2 & V3 & _).
  destruct (variant_set_byte b8 ltac:(assumption)) as (W1 & W2 & W3 & _).
  split; [| split; [| split]].
  - split; [reflexivity |]. repeat (constructor; [assumption |]). constructor.
  - unfold uuid_extract_version.
    change (data_at _ 8) with (Z.lor (Z.land b8 0x3f) 0x80).
    change (data_at _ 6) with (Z.lor (Z.land b6 0x0f) 0x40).
    rewrite W2, V2. reflexivity.
  - unfold uuid_extract_variant.
    change (data_at _ 8) with (Z.lor (Z.land b8 0x3f) 0x80).
    destruct (Z.ltb_spec (Z.shiftr (Z.lor (Z.land b8 0x3f) 0x80) 4) 8); [lia |].
    destruct (Z.ltb_spec (Z.shiftr (Z.lor (Z.land b8 0x3f) 0x80) 4) 12);
      [reflexivity | lia].
  - apply extract_absent_version;
      change (data_at _ 6) with (Z.lor (Z.land b6 0x0f) 0x40);
      rewrite V3; discriminate.
Qed.

(** X11.  [gen_random_uuid] keeps 122 of the 128 random bits: every
    byte but 6 and 8 is the delivered one, and so are the low four bits of
    byte 6 and the low six bits of byte 8. *)
Theorem gen_random_uuid_keeps_random_bits bytes :
  random_bytes 16 bytes ->
  exists u,
    gen_random_uuid (Some bytes) = Some u
    /\ (forall i, i <> 6%nat -> i <> 8%nat -> data_at u i = data_at bytes i)
    /\ data_at u 6 mod 16 = data_at bytes 6 mod 16
    /\ data_at u 8 mod 64 = data_at bytes 8 mod 64.
Proof.
  intros Hr.
  destruct (random_bytes_16 bytes Hr)
    as (b0 & b1 & b2 & b3 & b4 & b5 & b6 & b7 & b8 & b9 & b10 & b11 & b12
        & b13 & b14 & b15 & -> & Hb).
  split_bytes Hb.
  rewrite gen_random_uuid_value. eexists. split; [reflexivity |].
  destruct (version4_set b6 ltac:(assumption)) as (_ & _ & _ & V).
  destruct (variant_set_byte b8 ltac:(assumption)) as (_ & _ & _ & W).
  split; [| split].
  - intros i H6 H8. unfold data_at.
    do 16 (destruct i as [| i]; [first [reflexivity | congruence] |]).
    reflexivity.
  - exact V.
  - exact W.
Qed.

Lemma v7_value_explicit tms sc r0 r1 r2 r3 r4 r5 r6 r7 :
  v7_value tms sc [r0; r1; r2; r3; r4; r5; r6; r7]
  = [uchar (Z.shiftr tms 40); uchar (Z.shiftr tms 32); uchar (Z.shiftr tms 24);
     uchar (Z.shiftr tms 16); uchar (Z.shiftr tms 8); uchar tms;
     Z.lor (Z.land (uchar (Z.shiftr sc 14)) 0x0f) 0x70; uchar (Z.shiftr sc 6);
     Z.lor (Z.land r0 0x3f) 0x80; r1; r2; r3; r4; r5; r6; r7].
Proof. reflexivity. Qed.

Lemma v7_value_wf tms sc bytes :
  random_bytes 8 bytes -> uuid_wf (v7_value tms sc bytes).
Proof.
  intros Hr.
  destruct (random_bytes_8 bytes Hr)
    as (r0 & r1 & r2 & r3 & r4 & r5 & r6 & r7 & -> & Hb).
  split_bytes Hb. rewrite v7_value_explicit.
  split; [reflexivity |].
  repeat (constructor; [first [assumption | apply uchar_range
                              | apply version_set | apply variant_set] |]).
  constructor.
Qed.

(** X12.  When the random source delivers eight bytes, the value
    [uuidv7] returns is well-formed, its bytes 9 to 15 are the delivered
    bytes 1 to 7, [uuid_extract_version] gives 7 and
    [uuid_extract_variant] gives 2. *)
Theorem uuidv7_value_shape st tp bytes :
  random_bytes 8 bytes ->
  exists u,
    snd (uuidv7 st tp (Some bytes)) = Some u
    /\ uuid_wf u
    /\ (forall k, (1 <= k < 8)%nat -> data_at u (8 + k) = data_at bytes k)
    /\ uuid_extract_version u = Some 7
    /\ uuid_extract_variant u = 2.
Proof.
  intros Hr. rewrite uuidv7_value. eexists. split; [reflexivity |].
  split; [apply v7_value_wf, Hr |].
  destruct (random_bytes_8 bytes Hr)
    as (r0 & r1 & r2 & r3 & r4 & r5 & r6 & r7 & -> & Hb).
  split_bytes Hb. rewrite v7_value_explicit.
  destruct (version_set (uchar (Z.shiftr
              (sequence_counter (fst (advance st tp))) 14))) as (_ & V & _).
  destruct (variant_set_byte r0 ltac:(assumption)) as (_ & W2 & W3 & _).
  split; [| split].
  - intros k Hk. unfold data_at.
    do 8 (destruct k as [| k]; [first [lia | reflexivity] |]). lia.
  - unfold uuid_extract_version.
    change (data_at _ 8) with (Z.lor (Z.land r0 0x3f) 0x80).
    rewrite W2. cbn [Z.eqb Pos.eqb negb]. f_equal. exact V.
  - unfold uuid_extract_variant.
    change (data_at _ 8) with (Z.lor (Z.land r0 0x3f) 0x80).
    destruct (Z.ltb_spec (Z.shiftr (Z.lor (Z.land r0 0x3f) 0x80) 4) 8); [lia |].
    destruct (Z.ltb_spec (Z.shiftr (Z.lor (Z.land r0 0x3f) 0x80) 4) 12);
      [reflexivity | lia].
Qed.

(** The first eight bytes hold the timestamp, the version and the upper
    twelve bits of the counter. *)
Lemma counter_high_bits sc :
  0 <= sc <= 0x3ffff ->
  Z.lor (Z.land (uchar (Z.shiftr sc 14)) 0x0f) 0x70 * 256 + uchar (Z.shiftr sc 6)
  = 0x7000 + sc / 64.
Proof.
  intros Hsc.
  assert (Hhi : Z.lor (Z.land (uchar (Z.shiftr sc 14)) 0x0f) 0x70
                = 0x70 + sc / 16384).
  { rewrite Z.shiftr_div_pow2 by lia. change (2 ^ 14) with 16384.
    assert (Hq : 0 <= sc / 16384 < 16) by (Z.div_mod_to_equations; lia).
    rewrite uchar_id by (unfold is_uchar; lia).
    pose proof (forall_uchar
      (fun y => implb (y <? 16) (Z.lor (Z.land y 0x0f) 0x70 =? 0x70 + y))
      eq_refl (sc / 16384) ltac:(unfold is_uchar; lia)) as Hall.
    cbv beta in Hall. destruct (Z.ltb_spec (sc / 16384) 16); [| lia].
    cbn [implb] in Hall. apply Z.eqb_eq in Hall. exact Hall. }
  rewrite Hhi. unfold uchar. rewrite Z.shiftr_div_pow2 by lia.
  change (2 ^ 6) with 64. change (2 ^ 8) with 256.
  Z.div_mod_to_equations. lia.
Qed.

Lemma v7_value_prefix tms sc bytes :
  random_bytes 8 bytes ->
  0 <= tms < 2 ^ 48 -> 0 <= sc <= 0x3ffff ->
  from_bytes_be (take 8 (v7_value tms sc bytes)) = tms * 2 ^ 16 + 0x7000 + sc / 64.
Proof.
  intros Hr Ht Hsc.
  destruct (random_bytes_8 bytes Hr)
    as (r0 & r1 & r2 & r3 & r4 & r5 & r6 & r7 & -> & Hb).
  pose proof (v7_value_unix_ts_ms tms sc [r0; r1; r2; r3; r4; r5; r6; r7] Ht) as Hts.
  unfold unix_ts_ms in Hts. rewrite v7_value_explicit in *.
  unfold data_at in Hts. cbn [lookup list_lookup] in Hts.
  change (from_bytes_be (take 8 ?l)) with (from_bytes_be (firstn 8 l)).
  cbn [firstn]. unfold from_bytes_be. cbn [rev app from_bytes_le].
  pose proof (counter_high_bits sc Hsc) as Hc.
  cbn in Hts. lia.
Qed.

(** X13.  Of two successive calls of [uuidv7] (the first not leaving
    the wrapping state, timestamps below [2^48]), the second value is
    never smaller than the first in its first eight bytes, and it is
    greater as a whole when the stored timestamp has advanced. *)
Theorem uuidv7_time_ordered st tp1 r1 tp2 r2 :
  gen_state_wf st ->
  random_bytes 8 r1 -> random_bytes 8 r2 ->
  ~ at_wrap (fst (uuidv7 st tp1 (Some r1))) ->
  previous_timestamp
    (fst (uuidv7 (fst (uuidv7 st tp1 (Some r1))) tp2 (Some r2))) < 2 ^ 48 ->
  exists u1 u2,
    snd (uuidv7 st tp1 (Some r1)) = Some u1
    /\ snd (uuidv7 (fst (uuidv7 st tp1 (Some r1))) tp2 (Some r2)) = Some u2
    /\ memcmp u1 u2 8 <= 0
    /\ (previous_timestamp (fst (uuidv7 st tp1 (Some r1)))
        < previous_timestamp
            (fst (uuidv7 (fst (uuidv7 st tp1 (Some r1))) tp2 (Some r2))) ->
        uuid_lt u1 u2 = true).
Proof.
  intros Hwf Hr1 Hr2 Hnw Hbound.
  rewrite !uuidv7_value. rewrite !uuidv7_state in *.
  set (st1 := fst (advance st tp1)) in *.
  set (st2 := fst (advance st1 tp2)) in *.
  assert (Hwf1 : gen_state_wf st1) by (apply advance_wf, Hwf).
  assert (Hwf2 : gen_state_wf st2) by (apply advance_wf, Hwf1).
  pose proof (advance_increases st1 tp2 Hwf1 Hnw) as Hlt. fold st2 in Hlt.
  destruct Hwf1 as [Hc1 Hp1], Hwf2 as [Hc2 Hp2].
  eexists _, _. split; [reflexivity |]. split; [reflexivity |].
  set (u1 := v7_value (previous_timestamp st1) (sequence_counter st1) r1).
  set (u2 := v7_value (previous_timestamp st2) (sequence_counter st2) r2).
  destruct (v7_value_wf (previous_timestamp st1) (sequence_counter st1) r1 Hr1)
    as [Hl1 Hu1].
  destruct (v7_value_wf (previous_timestamp st2) (sequence_counter st2) r2 Hr2)
    as [Hl2 Hu2].
  fold u1 in Hl1, Hu1. fold u2 in Hl2, Hu2.
  destruct (cmp_prefix 8 u1 u2 ltac:(rewrite Hl1; cbv; lia)
              ltac:(rewrite Hl2; cbv; lia) Hu1 Hu2) as [Hs _].
  rewrite unsigned_cmp_sgn in Hs.
  assert (Hle12 : previous_timestamp st1 <= previous_timestamp st2)
    by (unfold state_lt in Hlt; lia).
  unfold u1, u2 in Hs.
  rewrite !v7_value_prefix in Hs by (assumption || lia).
  fold u1 u2 in Hs.
  assert (Hq1 : 0 <= sequence_counter st1 / 64 <= 4095)
    by (Z.div_mod_to_equations; lia).
  assert (Hq2 : 0 <= sequence_counter st2 / 64 <= 4095)
    by (Z.div_mod_to_equations; lia).
  assert (Hmono : sequence_counter st1 <= sequence_counter st2 ->
                  sequence_counter st1 / 64 <= sequence_counter st2 / 64)
    by (intros; apply Z.div_le_mono; lia).
  split.
  - unfold state_lt in Hlt.
    assert (Z.sgn (memcmp u1 u2 8) <= 0) by (rewrite <- Hs; lia). lia.
  - intros Hadv. unfold uuid_lt, uuid_internal_cmp.
    assert (Hneg : memcmp u1 u2 8 < 0).
    { assert (Z.sgn (memcmp u1 u2 8) < 0) by (rewrite <- Hs; lia). lia. }
    change UUID_LEN with (8 + 8)%nat.
    rewrite memcmp_split by (rewrite ?Hl1, ?Hl2; cbv; lia).
    destruct (Z.eqb_spec (memcmp u1 u2 8) 0); [lia |].
    apply Z.ltb_lt, Hneg.
Qed.

(** X14.  The timestamp a call writes is never behind the clock
    reading nor behind the previous timestamp, and at most one
    millisecond ahead of both: it is ahead exactly when the clock has not
    advanced and the counter was at [0x3ffff]. *)
Theorem effective_timestamp_bounds st tp :
  gen_state_wf st -> ~ at_wrap st ->
  Z.max (clock_ms tp) (previous_timestamp st) <= effective_timestamp st tp
  /\ effective_timestamp st tp <= Z.max (clock_ms tp) (previous_timestamp st) + 1
  /\ (effective_timestamp st tp = Z.max (clock_ms tp) (previous_timestamp st) + 1
      <-> clock_ms tp <= previous_timestamp st /\ sequence_counter st = 0x3ffff).
Proof.
  unfold gen_state_wf, at_wrap, effective_timestamp, advance.
  intros [Hc Hp] Hnw. pose proof (clock_ms_range tp) as Hclock.
  destruct (Z.leb_spec (clock_ms tp) (previous_timestamp st)) as [Hle | Hgt].
  - rewrite uint32_id by lia.
    destruct (Z.gtb_spec (sequence_counter st + 1) 0x3ffff) as [Hov | Hin]; cbn.
    + rewrite uint64_id by lia. lia.
    + lia.
  - cbn. lia.
Qed.

(** X15.  With the clock stalled at or behind [previous_timestamp],
    the counter runs up to [0x3ffff] without the timestamp moving, and
    the call after that restarts it at 0 one millisecond later. *)
Theorem counter_overflow_advances_timestamp tp rnd c p :
  0 <= c <= 0x3ffff -> 0 <= p < 2 ^ 64 - 1 -> clock_ms tp <= p ->
  repeat_call (Z.to_N (0x3ffff - c)) tp rnd (GenState c p) = GenState 0x3ffff p
  /\ repeat_call (Z.to_N (0x40000 - c)) tp rnd (GenState c p) = GenState 0 (p + 1).
Proof.
  intros Hc Hp Hclock.
  assert (Hfirst : repeat_call (Z.to_N (0x3ffff - c)) tp rnd (GenState c p)
                   = GenState 0x3ffff p).
  { rewrite repeat_call_stalled by lia. f_equal. lia. }
  split; [exact Hfirst |].
  replace (Z.to_N (0x40000 - c)) with (N.succ (Z.to_N (0x3ffff - c))) by lia.
  unfold repeat_call in *. rewrite N.iter_succ, Hfirst.
  rewrite uuidv7_state. unfold advance. cbn [previous_timestamp sequence_counter].
  destruct (Z.leb_spec (clock_ms tp) p); [| lia].
  rewrite uint32_id by lia. cbn [Z.gtb Z.compare Pos.compare Pos.compare_cont Z.add Pos.add Pos.succ].
  change (0x3ffff + 1 >? 0x3ffff) with true. cbn [fst].
  rewrite uint64_id by lia. reflexivity.
Qed.

(** ** Bit-field extraction *)

Lemma variant_classes b :
  is_uchar b ->
  ((Z.shiftr b 4 <? 8) = (b <? 0x80))
  /\ ((Z.shiftr b 4 <? 0xC) = (b <? 0xc0))
  /\ ((Z.shiftr b 4 <? 0xE) = (b <? 0xe0))
  /\ ((Z.land b 0xc0 =? 0x80) = ((0x80 <=? b) && (b <? 0xc0)))
  /\ 0 <= Z.shiftr b 4 <= 15.
Proof.
  intros Hb.
  pose proof (forall_uchar
    (fun y => Bool.eqb (Z.shiftr y 4 <? 8) (y <? 0x80)
              && Bool.eqb (Z.shiftr y 4 <? 0xC) (y <? 0xc0)
              && Bool.eqb (Z.shiftr y 4 <? 0xE) (y <? 0xe0)
              && Bool.eqb (Z.land y 0xc0 =? 0x80) ((0x80 <=? y) && (y <? 0xc0))
              && (0 <=? Z.shiftr y 4) && (Z.shiftr y 4 <=? 15))
    eq_refl b Hb) as Hall.
  cbv beta in Hall.
  rewrite !andb_true_iff, !Z.leb_le in Hall.
  destruct Hall as [[[[[H1 H2] H3] H4] H5] H6].
  apply eqb_prop in H1, H2, H3, H4. repeat split; assumption.
Qed.

(** X16.  [uuid_extract_variant] gives 0, 2, 6 or 7 as byte 8 starts
    with bits [0], [10], [110] or [111]; [uuid_extract_version] gives the
    null exactly when the variant is not 2, and otherwise the top four
    bits of byte 6, a number from 0 to 15. *)
Theorem variant_and_version (u : list Z) :
  uuid_wf u ->
  (uuid_extract_variant u = 0 <-> data_at u 8 < 0x80)
  /\ (uuid_extract_variant u = 2 <-> 0x80 <= data_at u 8 < 0xc0)
  /\ (uuid_extract_variant u = 6 <-> 0xc0 <= data_at u 8 < 0xe0)
  /\ (uuid_extract_variant u = 7 <-> 0xe0 <= data_at u 8)
  /\ (uuid_extract_version u = None <-> uuid_extract_variant u <> 2)
  /\ (forall v, uuid_extract_version u = Some v ->
                v = version_nibble u /\ 0 <= v <= 15).
Proof.
  intros Hwf.
  pose proof (uuid_wf_bytes u 8 Hwf) as H8.
  pose proof (uuid_wf_bytes u 6 Hwf) as H6.
  destruct (variant_classes _ H8) as (C1 & C2 & C3 & C4 & _).
  destruct (variant_classes _ H6) as (_ & _ & _ & _ & R6).
  unfold uuid_extract_variant, uuid_extract_version, version_nibble.
  rewrite C1, C2, C3, C4.
  destruct (Z.ltb_spec (data_at u 8) 0x80);
    destruct (Z.ltb_spec (data_at u 8) 0xc0);
    destruct (Z.ltb_spec (data_at u 8) 0xe0);
    destruct (Z.leb_spec 0x80 (data_at u 8)); try lia;
    cbn [andb negb];
    (repeat split; try lia; try congruence; try discriminate;
     try (intros v Hv; inversion Hv; subst; tauto);
     try (intros v Hv; discriminate Hv);
     try (intros Hx; exfalso; apply Hx; reflexivity)).
  all: match goal with Hv : Some _ = Some _ |- _ => inversion Hv; subst; lia end.
Qed.

Lemma gregorian_shift_value :
  uint64 (uint64 (uint64 POSTGRES_EPOCH_JDATE - GREGORIAN_EPOCH_JDATE)
          * SECS_PER_DAY * USECS_PER_SEC) = gregorian_shift_us
  /\ gregorian_shift_us = 13165977600000000.
Proof. split; reflexivity. Qed.

Lemma land_15_mod b : Z.land (uint64 b) 0xf = uint64 b mod 16.
Proof. change 0xf with (Z.ones 4). rewrite Z.land_ones by lia. reflexivity. Qed.

Lemma gregorian_to_engine tms :
  0 <= tms < 2 ^ 60 ->
  int64 (uint64 (int64 (tms / 10))
         - uint64 (uint64 (uint64 POSTGRES_EPOCH_JDATE - GREGORIAN_EPOCH_JDATE)
                   * SECS_PER_DAY * USECS_PER_SEC))
  = tms / 10 - gregorian_shift_us.
Proof.
  intros Ht. destruct gregorian_shift_value as [-> Hv].
  assert (Hq : 0 <= tms / 10 < 2 ^ 57) by (Z.div_mod_to_equations; lia).
  rewrite (int64_id (tms / 10)) by lia.
  rewrite uint64_id by lia.
  apply int64_id. rewrite Hv. lia.
Qed.

(** X17.  For a version 1 value of variant [10],
    [uuid_extract_timestamp] gives the 60-bit count of 100 ns intervals
    (time_hi, time_mid, time_low) divided by ten, less the 13165977600
    seconds from 1582-10-15 to the engine's epoch, without wrap-around. *)
Theorem extract_timestamp_v1 (u : list Z) :
  uuid_wf u -> variant_bits u = 2 -> version_nibble u = 1 ->
  uuid_extract_timestamp u = Some (v1_timestamp u / 10 - 13165977600000000)
  /\ 0 <= v1_timestamp u < 2 ^ 60.
Proof.
  intros Hwf Hvar Hver.
  pose proof (uuid_wf_bytes u 8 Hwf) as H8.
  pose proof (uuid_wf_bytes u 6 Hwf) as H6.
  pose proof (uuid_wf_bytes u 0 Hwf) as B0. pose proof (uuid_wf_bytes u 1 Hwf) as B1.
  pose proof (uuid_wf_bytes u 2 Hwf) as B2. pose proof (uuid_wf_bytes u 3 Hwf) as B3.
  pose proof (uuid_wf_bytes u 4 Hwf) as B4. pose proof (uuid_wf_bytes u 5 Hwf) as B5.
  pose proof (uuid_wf_bytes u 7 Hwf) as B7.
  assert (Hrange : 0 <= v1_timestamp u < 2 ^ 60).
  { unfold v1_timestamp, is_uchar in *.
    pose proof (Z.mod_pos_bound (data_at u 6) 16 ltac:(lia)). lia. }
  split; [| exact Hrange].
  unfold uuid_extract_timestamp.
  rewrite (variant_test _ H8). unfold variant_bits in Hvar. rewrite Hvar.
  assert (E7 : (Z.land (data_at u 6) 0xf0 =? 0x70) = (Z.shiftr (data_at u 6) 4 =? 7))
    by (apply (version_test _ 7 H6); lia).
  assert (E1 : (Z.land (data_at u 6) 0xf0 =? 0x10) = (Z.shiftr (data_at u 6) 4 =? 1))
    by (apply (version_test _ 1 H6); lia).
  unfold version_nibble in Hver. rewrite E7, E1, Hver.
  cbn [Z.eqb Pos.eqb negb]. f_equal.
  destruct gregorian_shift_value as [_ <-].
  rewrite <- gregorian_to_engine by exact Hrange. do 5 f_equal.
  unfold v1_timestamp. rewrite land_15_mod.
  assert (Hm : is_uchar (uint64 (data_at u 6) mod 16)).
  { rewrite uint64_id by (unfold is_uchar in *; lia).
    pose proof (Z.mod_pos_bound (data_at u 6) 16 ltac:(lia)).
    unfold is_uchar. lia. }
  rewrite !shl64_small by (assumption || lia).
  rewrite (uint64_id (data_at u 3)) by (unfold is_uchar in *; lia).
  rewrite (uint64_id (data_at u 6)) by (unfold is_uchar in *; lia).
  pose proof (Z.mod_pos_bound (data_at u 6) 16 ltac:(lia)) as H6m.
  unfold is_uchar in *.
  rewrite (uint64_id (data_at u 0 * 2 ^ 24 + _)) by lia.
  rewrite (uint64_id (data_at u 0 * 2 ^ 24 + _ + _)) by lia.
  rewrite (uint64_id (data_at u 0 * 2 ^ 24 + _ + _ + _)) by lia.
  rewrite (uint64_id (data_at u 0 * 2 ^ 24 + _ + _ + _ + _)) by lia.
  rewrite (uint64_id (data_at u 0 * 2 ^ 24 + _ + _ + _ + _ + _)) by lia.
  rewrite (uint64_id (data_at u 0 * 2 ^ 24 + _ + _ + _ + _ + _ + _)) by lia.
  rewrite (uint64_id (data_at u 0 * 2 ^ 24 + _ + _ + _ + _ + _ + _ + _)) by lia.
  lia.
Qed.

Lemma extract_timestamp_v6_value (u : list Z) :
  uuid_wf u -> variant_bits u = 2 -> version_nibble u = 6 ->
  uuid_extract_timestamp u = Some (v6_timestamp u / 10 - 13165977600000000)
  /\ 0 <= v6_timestamp u < 2 ^ 60.
Proof.
  intros Hwf Hvar Hver.
  pose proof (uuid_wf_bytes u 8 Hwf) as H8.
  pose proof (uuid_wf_bytes u 6 Hwf) as H6.
  pose proof (uuid_wf_bytes u 0 Hwf) as B0. pose proof (uuid_wf_bytes u 1 Hwf) as B1.
  pose proof (uuid_wf_bytes u 2 Hwf) as B2. pose proof (uuid_wf_bytes u 3 Hwf) as B3.
  pose proof (uuid_wf_bytes u 4 Hwf) as B4. pose proof (uuid_wf_bytes u 5 Hwf) as B5.
  pose proof (uuid_wf_bytes u 7 Hwf) as B7.
  assert (Hrange : 0 <= v6_timestamp u < 2 ^ 60).
  { unfold v6_timestamp, is_uchar in *.
    pose proof (Z.mod_pos_bound (data_at u 6) 16 ltac:(lia)). lia. }
  split; [| exact Hrange].
  unfold uuid_extract_timestamp.
  rewrite (variant_test _ H8). unfold variant_bits in Hvar. rewrite Hvar.
  assert (E7 : (Z.land (data_at u 6) 0xf0 =? 0x70) = (Z.shiftr (data_at u 6) 4 =? 7))
    by (apply (version_test _ 7 H6); lia).
  assert (E1 : (Z.land (data_at u 6) 0xf0 =? 0x10) = (Z.shiftr (data_at u 6) 4 =? 1))
    by (apply (version_test _ 1 H6); lia).
  assert (E6 : (Z.land (data_at u 6) 0xf0 =? 0x60) = (Z.shiftr (data_at u 6) 4 =? 6))
    by (apply (version_test _ 6 H6); lia).
  unfold version_nibble in Hver. rewrite E7, E1, E6, Hver.
  cbn [Z.eqb Pos.eqb negb]. f_equal.
  destruct gregorian_shift_value as [_ <-].
  rewrite <- gregorian_to_engine by exact Hrange. do 5 f_equal.
  unfold v6_timestamp. rewrite land_15_mod.
  assert (Hm : is_uchar (uint64 (data_at u 6) mod 16)).
  { rewrite uint64_id by (unfold is_uchar in *; lia).
    pose proof (Z.mod_pos_bound (data_at u 6) 16 ltac:(lia)).
    unfold is_uchar. lia. }
  rewrite !shl64_small by (assumption || lia).
  rewrite (uint64_id (data_at u 7)) by (unfold is_uchar in *; lia).
  rewrite (uint64_id (data_at u 6)) by (unfold is_uchar in *; lia).
  pose proof (Z.mod_pos_bound (data_at u 6) 16 ltac:(lia)) as H6m.
  unfold is_uchar in *.
  rewrite (uint64_id (data_at u 0 * 2 ^ 52 + _)) by lia.
  rewrite (uint64_id (data_at u 0 * 2 ^ 52 + _ + _)) by lia.
  rewrite (uint64_id (data_at u 0 * 2 ^ 52 + _ + _ + _)) by lia.
  rewrite (uint64_id (data_at u 0 * 2 ^ 52 + _ + _ + _ + _)) by lia.
  rewrite (uint64_id (data_at u 0 * 2 ^ 52 + _ + _ + _ + _ + _)) by lia.
  rewrite (uint64_id (data_at u 0 * 2 ^ 52 + _ + _ + _ + _ + _ + _)) by lia.
  rewrite (uint64_id (data_at u 0 * 2 ^ 52 + _ + _ + _ + _ + _ + _ + _)) by lia.
  lia.
Qed.

(** X18.  For a version 6 value of variant [10],
    [uuid_extract_timestamp] gives the 60-bit count read in the order of
    the bytes, divided by ten, less the same shift, without
    wrap-around. *)
Theorem extract_timestamp_v6 (u : list Z) :
  uuid_wf u -> variant_bits u = 2 -> version_nibble u = 6 ->
  uuid_extract_timestamp u = Some (v6_timestamp u / 10 - 13165977600000000)
  /\ 0 <= v6_timestamp u < 2 ^ 60.
Proof. apply extract_timestamp_v6_value. Qed.

Lemma memcmp_prefix_le n m (a b : list Z) :
  (n <= length a)%nat -> (n <= length b)%nat ->
  memcmp a b (n + m) <= 0 -> memcmp a b n <= 0.
Proof.
  intros Ha Hb. rewrite memcmp_split by assumption.
  destruct (Z.eqb_spec (memcmp a b n) 0); lia.
Qed.

Lemma uuid_bytes (u : list Z) :
  length u = UUID_LEN ->
  u = [data_at u 0; data_at u 1; data_at u 2; data_at u 3; data_at u 4;
       data_at u 5; data_at u 6; data_at u 7; data_at u 8; data_at u 9;
       data_at u 10; data_at u 11; data_at u 12; data_at u 13; data_at u 14;
       data_at u 15].
Proof.
  intros Hlen.
  do 16 (destruct u as [| ? u]; [discriminate Hlen |]).
  destruct u; [reflexivity | discriminate Hlen].
Qed.

Lemma prefix48_value (u : list Z) :
  length u = UUID_LEN -> from_bytes_be (take 6 u) = unix_ts_ms u.
Proof.
  intros Hlen. rewrite (uuid_bytes u Hlen) at 1.
  unfold unix_ts_ms, from_bytes_be.
  change (take 6 ?l) with (firstn 6 l). cbn [firstn rev app from_bytes_le]. lia.
Qed.

Lemma prefix64_value (u : list Z) :
  length u = UUID_LEN -> from_bytes_be (take 8 u) = prefix64 u.
Proof.
  intros Hlen. rewrite (uuid_bytes u Hlen) at 1.
  unfold prefix64, from_bytes_be.
  change (take 8 ?l) with (firstn 8 l). cbn [firstn rev app from_bytes_le]. lia.
Qed.

Lemma prefix_order n (a b : list Z) :
  uuid_wf a -> uuid_wf b -> (n <= UUID_LEN)%nat ->
  uuid_le a b = true ->
  from_bytes_be (take n a) <= from_bytes_be (take n b).
Proof.
  intros [Hla Ha] [Hlb Hb] Hn Hle.
  unfold uuid_le, uuid_internal_cmp in Hle. apply Z.leb_le in Hle.
  replace UUID_LEN with (n + (UUID_LEN - n))%nat in Hle by lia.
  apply memcmp_prefix_le in Hle; [| lia | lia].
  destruct (cmp_prefix n a b ltac:(lia) ltac:(lia) Ha Hb) as [Hs _].
  rewrite unsigned_cmp_sgn in Hs. lia.
Qed.

Lemma extract_timestamp_v7_value (u : list Z) :
  uuid_wf u -> variant_bits u = 2 -> version_nibble u = 7 ->
  uuid_extract_timestamp u = Some (unix_ts_ms u * 1000 - epoch_shift_us).
Proof.
  intros Hwf Hv Hn. apply extract_v7.
  - intros i _. apply uuid_wf_bytes, Hwf.
  - apply Z.eqb_eq. rewrite (variant_test _ (uuid_wf_bytes u 8 Hwf)).
    apply Z.eqb_eq, Hv.
  - apply Z.eqb_eq.
    assert (E7 : (Z.land (data_at u 6) 0xf0 =? 0x70)
                 = (Z.shiftr (data_at u 6) 4 =? 7))
      by (apply (version_test _ 7 (uuid_wf_bytes u 6 Hwf)); lia).
    rewrite E7. apply Z.eqb_eq, Hn.
Qed.

(** X19.  Version 7 values sort by time: if [a] is not greater than
    [b] under [uuid_le], the timestamp extracted from [a] is not later
    than the one extracted from [b]. *)
Theorem v7_order_is_time_order (a b : list Z) :
  uuid_wf a -> uuid_wf b ->
  variant_bits a = 2 -> version_nibble a = 7 ->
  variant_bits b = 2 -> version_nibble b = 7 ->
  uuid_le a b = true ->
  exists ta tb,
    uuid_extract_timestamp a = Some ta
    /\ uuid_extract_timestamp b = Some tb
    /\ ta <= tb.
Proof.
  intros Hwa Hwb Hva Hna Hvb Hnb Hle.
  pose proof (prefix_order 6 a b Hwa Hwb ltac:(cbv; lia) Hle) as Hpre.
  rewrite !prefix48_value in Hpre by (apply Hwa || apply Hwb).
  pose proof extract_timestamp_v7_value as Hx.
  eexists _, _. split; [apply Hx; assumption |]. split; [apply Hx; assumption |].
  lia.
Qed.

Lemma version_nibble_byte (u : list Z) v :
  uuid_wf u -> version_nibble u = v ->
  data_at u 6 = v * 16 + data_at u 6 mod 16.
Proof.
  intros Hwf <-. unfold version_nibble. rewrite Z.shiftr_div_pow2 by lia.
  change (2 ^ 4) with 16. Z.div_mod_to_equations. lia.
Qed.

(** X20.  Version 6 values sort by time in the same way. *)
Theorem v6_order_is_time_order (a b : list Z) :
  uuid_wf a -> uuid_wf b ->
  variant_bits a = 2 -> version_nibble a = 6 ->
  variant_bits b = 2 -> version_nibble b = 6 ->
  uuid_le a b = true ->
  exists ta tb,
    uuid_extract_timestamp a = Some ta
    /\ uuid_extract_timestamp b = Some tb
    /\ ta <= tb.
Proof.
  intros Hwa Hwb Hva Hna Hvb Hnb Hle.
  pose proof (prefix_order 8 a b Hwa Hwb ltac:(cbv; lia) Hle) as Hpre.
  rewrite !prefix64_value in Hpre by (apply Hwa || apply Hwb).
  destruct (extract_timestamp_v6_value a Hwa Hva Hna) as [Ea Ra].
  destruct (extract_timestamp_v6_value b Hwb Hvb Hnb) as [Eb Rb].
  eexists _, _. split; [exact Ea |]. split; [exact Eb |].
  assert (Hts : v6_timestamp a <= v6_timestamp b).
  { pose proof (version_nibble_byte a 6 Hwa Hna) as H6a.
    pose proof (version_nibble_byte b 6 Hwb Hnb) as H6b.
    unfold prefix64 in Hpre. rewrite H6a, H6b in Hpre.
    unfold v6_timestamp.
    pose proof (Z.mod_pos_bound (data_at a 6) 16 ltac:(lia)).
    pose proof (Z.mod_pos_bound (data_at b 6) 16 ltac:(lia)).
    pose proof (uuid_wf_bytes a 0 Hwa). pose proof (uuid_wf_bytes a 1 Hwa).
    pose proof (uuid_wf_bytes a 2 Hwa). pose proof (uuid_wf_bytes a 3 Hwa).
    pose proof (uuid_wf_bytes a 4 Hwa). pose proof (uuid_wf_bytes a 5 Hwa).
    pose proof (uuid_wf_bytes a 7 Hwa).
    pose proof (uuid_wf_bytes b 0 Hwb). pose proof (uuid_wf_bytes b 1 Hwb).
    pose proof (uuid_wf_bytes b 2 Hwb). pose proof (uuid_wf_bytes b 3 Hwb).
    pose proof (uuid_wf_bytes b 4 Hwb). pose proof (uuid_wf_bytes b 5 Hwb).
    pose proof (uuid_wf_bytes b 7 Hwb).
    unfold is_uchar in *. lia. }
  pose proof (Z.div_le_mono _ _ 10 ltac:(lia) Hts). lia.
Qed.

(** ** Text input: what surrounds the digits *)

Lemma forallb_seq_cons (P : nat -> bool) i n :
  forallb P (seq i (S n)) = P i && forallb P (seq (S i) n).
Proof. reflexivity. Qed.

Lemma loop_hyphenated_tail h (v : list Z) tail :
  Forall is_uchar v -> length v = UUID_LEN ->
  forall n i (buf : list Z),
    (i + n = UUID_LEN)%nat -> length buf = UUID_LEN ->
    forallb (fun j => implb (h j) (hyphen_allowed j)) (seq i n) = true ->
    string_to_uuid_loop n i (hyphenated_loop h n i v ++ tail)%string buf
    = Some (tail, take i buf ++ drop i v).
Proof.
  intros Hv Hlen. induction n as [| n IH]; intros i buf Hi Hbuf Hall.
  - cbn. rewrite take_ge, drop_ge by lia. rewrite app_nil_r. reflexivity.
  - rewrite forallb_seq_cons in Hall. apply andb_true_iff in Hall as [Hhere Hall].
    rewrite hyphenated_loop_step. cbn [String.append].
    pose proof (data_at_uchar v i Hv) as Hb.
    assert (Hvi : v !! i = Some (data_at v i)).
    { unfold data_at. destruct (v !! i) eqn:E; [reflexivity |].
      apply lookup_ge_None in E. lia. }
    assert (Hnext : take (S i) (<[i := data_at v i]> buf) ++ drop (S i) v
                    = take i buf ++ drop i v).
    { rewrite take_S_insert by lia. rewrite <- app_assoc. cbn [app].
      rewrite <- (drop_S _ _ _ Hvi). reflexivity. }
    specialize (IH (S i) (<[i := data_at v i]> buf) ltac:(lia)
                  ltac:(rewrite length_insert; exact Hbuf) Hall).
    rewrite Hnext in IH.
    rewrite loop_step by exact Hb.
    destruct (h i) eqn:Hh; cbn [implb] in Hhere.
    + cbn [String.append]. rewrite char_at_0_cons.
      change (Ascii.eqb "-" "-") with true. rewrite Hhere. cbn [andb].
      change (ptr_add (String "-" ?s) 1) with s. exact IH.
    + assert (Hno : Ascii.eqb (char_at (hyphenated_loop h n (S i) v ++ tail) 0) "-"
                    && hyphen_allowed i = false).
      { destruct n as [| n].
        - replace i with 15%nat by (unfold UUID_LEN in Hi; lia).
          apply andb_false_r.
        - rewrite hyphenated_loop_step. cbn [String.append].
          rewrite char_at_0_cons.
          destruct (hex_pair_facts _ (data_at_uchar v (S i) Hv))
            as (_ & _ & _ & _ & Hd & _).
          rewrite Hd. reflexivity. }
      rewrite Hno. exact IH.
Qed.

(** X21.  After the digits of a value (with hyphens at allowed
    places) [uuid_in] accepts nothing but the end of the text; after an
    opening brace and the digits it accepts a closing brace followed by
    the end, and nothing else.  So trailing text, a brace that is not
    closed and a closing brace that was not opened are syntax errors. *)
Theorem uuid_in_surroundings h (v : list Z) tail :
  uuid_wf v -> hyphens_allowed h = true ->
  parsed_value (uuid_in (hyphenated h v ++ tail))
  = (if Ascii.eqb (char_at tail 0) NUL then Some v else None)
  /\ parsed_value (uuid_in (String "{" (hyphenated h v ++ tail)))
     = (if Ascii.eqb (char_at tail 0) "}" && Ascii.eqb (char_at tail 1) NUL
        then Some v else None).
Proof.
  intros [Hlen Hv] Hall. unfold hyphens_allowed in Hall.
  pose proof (loop_hyphenated_tail h v tail Hv Hlen UUID_LEN 0%nat
                (palloc UUID_LEN) eq_refl eq_refl Hall) as Hloop.
  fold (hyphenated h v) in Hloop. rewrite take_0, drop_0 in Hloop.
  cbn [app] in Hloop.
  assert (Hfirst : Ascii.eqb (char_at (hyphenated h v ++ tail) 0) "{" = false).
  { unfold hyphenated, UUID_LEN. rewrite hyphenated_loop_step.
    cbn [String.append]. rewrite char_at_0_cons.
    apply (hex_pair_facts _ (data_at_uchar v 0 Hv)). }
  split.
  - unfold uuid_in, string_to_uuid. rewrite Hfirst, Hloop. cbn [andb].
    destruct (Ascii.eqb (char_at tail 0) NUL); reflexivity.
  - unfold uuid_in, string_to_uuid. rewrite char_at_0_cons.
    change (Ascii.eqb "{" "{") with true.
    change (ptr_add (String "{" ?s) 1) with s.
    cbv beta iota zeta. rewrite Hloop. cbn [andb].
    destruct (Ascii.eqb (char_at tail 0) "}") eqn:Hclose; cbn [negb andb].
    + destruct tail as [| c tail']; [discriminate Hclose |].
      change (ptr_add (String c tail') 1) with tail'.
      change (char_at (String c tail') 1) with (char_at tail' 0).
      destruct (Ascii.eqb (char_at tail' 0) NUL); reflexivity.
    + reflexivity.
Qed.

(** ** Text input: what an accepted text is *)

Lemma loop_buffer n : forall i src (buf : list Z) src' buf',
  string_to_uuid_loop n i src buf = Some (src', buf') ->
  length buf' = length buf /\ (Forall is_uchar buf -> Forall is_uchar buf').
Proof.
  induction n as [| n IH]; intros i src buf src' buf' Hloop.
  - cbn in Hloop. inversion Hloop; subst. auto.
  - destruct (loop_inv n i src buf) as (c0 & c1 & rest & -> & _ & _ & Hstep).
    { rewrite Hloop. discriminate. }
    rewrite Hstep in Hloop. apply IH in Hloop as [Hl Hf].
    rewrite length_insert in Hl. split; [exact Hl |].
    intros Hb. apply Hf, Forall_insert; [exact Hb | apply uchar_range].
Qed.

Lemma uuid_in_parsed s (v : list Z) :
  uuid_in s = Parsed v ->
  exists (braces : bool) src',
    string_to_uuid_loop UUID_LEN 0 (if braces then ptr_add s 1 else s)
      (palloc UUID_LEN) = Some (src', v)
    /\ braces = Ascii.eqb (char_at s 0) "{"
    /\ (braces = true -> Ascii.eqb (char_at src' 0) "}" = true)
    /\ Ascii.eqb (char_at (if braces then ptr_add src' 1 else src') 0) NUL = true.
Proof.
  unfold uuid_in, string_to_uuid. intros Hp.
  exists (Ascii.eqb (char_at s 0) "{").
  destruct (Ascii.eqb (char_at s 0) "{"); cbv beta iota zeta in Hp;
    destruct (string_to_uuid_loop _ _ _ _) as [[src' u] |]; try discriminate.
  - exists src'. cbn [andb] in Hp.
    destruct (Ascii.eqb (char_at src' 0) "}"); [| discriminate]. cbn [negb] in Hp.
    destruct (Ascii.eqb (char_at (ptr_add src' 1) 0) NUL); [| discriminate].
    inversion Hp; subst. auto.
  - exists src'. cbn [andb] in Hp.
    destruct (Ascii.eqb (char_at src' 0) NUL); [| discriminate].
    inversion Hp; subst. repeat split; auto. discriminate.
Qed.

Lemma palloc_wf : length (palloc UUID_LEN) = UUID_LEN /\ Forall is_uchar (palloc UUID_LEN).
Proof.
  split; [reflexivity |]. unfold palloc, UUID_LEN.
  repeat (constructor; [unfold is_uchar; lia |]). constructor.
Qed.

(** X22.  Whatever text [uuid_in] accepts, the value it returns is
    sixteen bytes in range, and printing it with [uuid_out] gives a text
    that is read back as the same value. *)
Theorem uuid_in_result_canonical s (v : list Z) :
  uuid_in s = Parsed v ->
  uuid_wf v /\ uuid_in (uuid_out v) = Parsed v.
Proof.
  intros Hp.
  destruct (uuid_in_parsed s v Hp) as (braces & src' & Hloop & _).
  destruct (loop_buffer _ _ _ _ _ _ Hloop) as [Hl Hf].
  destruct palloc_wf as [Hpl Hpf].
  assert (Hwf : uuid_wf v) by (split; [rewrite Hl; exact Hpl | apply Hf, Hpf]).
  split; [exact Hwf |].
  rewrite uuid_out_hyphenated, uuid_in_hyphenated by exact Hwf. reflexivity.
Qed.

Lemma count_xdigits_app a b :
  count_xdigits (a ++ b) = (count_xdigits a + count_xdigits b)%nat.
Proof.
  induction a as [| c a IH]; cbn [String.append count_xdigits]; [reflexivity |].
  rewrite IH. lia.
Qed.

Lemma string_length_app a b :
  String.length (a ++ b) = (String.length a + String.length b)%nat.
Proof.
  induction a as [| c a IH]; cbn [String.append String.length]; [reflexivity |].
  rewrite IH. reflexivity.
Qed.

Lemma hyphen_not_xdigit : isxdigit "-" = false.
Proof. reflexivity. Qed.

(** What the loop has read when it ends: two digits for each byte, and
    a hyphen for some of the bytes at which one is allowed. *)
Lemma loop_consumes n : forall i src (buf : list Z) src' buf',
  string_to_uuid_loop n i src buf = Some (src', buf') ->
  exists used,
    src = (used ++ src')%string
    /\ count_xdigits used = (2 * n)%nat
    /\ (2 * n <= String.length used)%nat
    /\ (String.length used
        <= 2 * n + length (filter (fun j => hyphen_allowed j = true) (seq i n)))%nat.
Proof.
  induction n as [| n IH]; intros i src buf src' buf' Hloop.
  - cbn in Hloop. inversion Hloop; subst. exists EmptyString. cbn. auto.
  - destruct (loop_inv n i src buf) as (c0 & c1 & rest & -> & X0 & X1 & Hstep).
    { rewrite Hloop. discriminate. }
    rewrite Hstep in Hloop. clear Hstep.
    cbn [seq]. rewrite filter_cons.
    destruct (Ascii.eqb (char_at rest 0) "-" && hyphen_allowed i) eqn:Htake.
    + apply andb_true_iff in Htake as [Hhy Hal].
      destruct rest as [| d rest1]; [discriminate Hhy |].
      rewrite char_at_0_cons in Hhy. apply Ascii.eqb_eq in Hhy. subst d.
      change (ptr_add (String "-" rest1) 1) with rest1 in Hloop.
      destruct (IH _ _ _ _ _ Hloop) as (used & -> & Hc & Hlo & Hhi).
      exists (String c0 (String c1 (String "-" used))).
      rewrite decide_True by exact Hal.
      cbn [String.append count_xdigits String.length length].
      rewrite X0, X1, hyphen_not_xdigit. repeat split; lia.
    + destruct (IH _ _ _ _ _ Hloop) as (used & -> & Hc & Hlo & Hhi).
      exists (String c0 (String c1 used)).
      cbn [String.append count_xdigits String.length].
      rewrite X0, X1.
      repeat split; try lia.
      case_decide; cbn [length]; lia.
Qed.

Lemma starts_with_nul s :
  no_nul s = true -> Ascii.eqb (char_at s 0) NUL = true -> s = EmptyString.
Proof.
  destruct s as [| c s]; [reflexivity |]. cbn [no_nul]. rewrite char_at_0_cons.
  intros Hn Hc. rewrite Hc in Hn. discriminate.
Qed.

(** X23.  A text [uuid_in] accepts has at least 32 characters; if it
    holds no terminator it has exactly 32 hexadecimal digits and at most
    41 characters.  The empty text, and any shorter one, is a syntax
    error. *)
Theorem accepted_text_shape s (v : list Z) :
  uuid_in s = Parsed v ->
  (32 <= String.length s)%nat
  /\ (no_nul s = true ->
      count_xdigits s = 32%nat /\ (String.length s <= 41)%nat).
Proof.
  intros Hp.
  destruct (uuid_in_parsed s v Hp) as (braces & src' & Hloop & Hb & Hclose & Hend).
  destruct (loop_consumes _ _ _ _ _ _ Hloop) as (used & Hsrc & Hc & Hlo & Hhi).
  change (length (filter _ (seq 0 UUID_LEN))) with 7%nat in Hhi.
  unfold UUID_LEN in *.
  destruct braces.
  - destruct s as [| c s1]; [discriminate Hb |].
    rewrite char_at_0_cons in Hb. symmetry in Hb. apply Ascii.eqb_eq in Hb. subst c.
    change (ptr_add (String "{" s1) 1) with s1 in Hsrc. subst s1.
    split.
    + cbn [String.length]. rewrite string_length_app. lia.
    + cbn [no_nul]. rewrite no_nul_app. intros Hnn.
      apply andb_true_iff in Hnn as [_ Hnn].
      apply andb_true_iff in Hnn as [_ Hnn].
      specialize (Hclose eq_refl).
      destruct src' as [| d rest]; [discriminate Hclose |].
      rewrite char_at_0_cons in Hclose. apply Ascii.eqb_eq in Hclose. subst d.
      change (ptr_add (String "}" rest) 1) with rest in Hend.
      cbn [no_nul] in Hnn. apply andb_true_iff in Hnn as [_ Hnn].
      rewrite (starts_with_nul rest Hnn Hend).
      cbn [count_xdigits String.length]. rewrite count_xdigits_app, string_length_app.
      change (isxdigit "{") with false.
      change (count_xdigits (String "}" EmptyString)) with 0%nat.
      cbv iota. cbn [String.length]. lia.
  - subst s. split.
    + rewrite string_length_app. lia.
    + rewrite no_nul_app. intros Hnn. apply andb_true_iff in Hnn as [_ Hnn].
      rewrite (starts_with_nul src' Hnn Hend).
      rewrite count_xdigits_app, string_length_app. cbn. lia.
Qed.

(** X25.  [uuid_out] is injective: two values printed as the same text
    are the same value. *)
Theorem uuid_out_injective (a b : list Z) :
  uuid_wf a -> uuid_wf b ->
  uuid_out a = uuid_out b -> a = b.
Proof.
  intros Ha Hb Heq.
  assert (Hpa : uuid_in (uuid_out a) = Parsed a)
    by (rewrite uuid_out_hyphenated, uuid_in_hyphenated by exact Ha; reflexivity).
  assert (Hpb : uuid_in (uuid_out b) = Parsed b)
    by (rewrite uuid_out_hyphenated, uuid_in_hyphenated by exact Hb; reflexivity).
  rewrite Heq, Hpb in Hpa. inversion Hpa. reflexivity.
Qed.

(** ** Text input: letter case *)

Lemma forall_ascii (P : ascii -> bool) :
  forallb P (map ascii_of_nat (seq 0 256)) = true ->
  forall c, P c = true.
Proof.
  intros Hall c. rewrite forallb_forall in Hall. apply Hall.
  apply in_map_iff. exists (nat_of_ascii c). split.
  - apply ascii_nat_embedding.
  - apply in_seq. pose proof (nat_ascii_bounded c). lia.
Qed.

Lemma toupper_facts c :
  Ascii.eqb (toupper c) NUL = Ascii.eqb c NUL
  /\ Ascii.eqb (toupper c) "-" = Ascii.eqb c "-"
  /\ Ascii.eqb (toupper c) "{" = Ascii.eqb c "{"
  /\ Ascii.eqb (toupper c) "}" = Ascii.eqb c "}"
  /\ isxdigit (toupper c) = isxdigit c
  /\ (isxdigit c = true -> xdigit_value (toupper c) = xdigit_value c).
Proof.
  pose proof (forall_ascii
    (fun x => Bool.eqb (Ascii.eqb (toupper x) NUL) (Ascii.eqb x NUL)
              && Bool.eqb (Ascii.eqb (toupper x) "-") (Ascii.eqb x "-")
              && Bool.eqb (Ascii.eqb (toupper x) "{") (Ascii.eqb x "{")
              && Bool.eqb (Ascii.eqb (toupper x) "}") (Ascii.eqb x "}")
              && Bool.eqb (isxdigit (toupper x)) (isxdigit x)
              && implb (isxdigit x) (xdigit_value (toupper x) =? xdigit_value x))
    ltac:(vm_compute; reflexivity) c) as Hall.
  cbv beta in Hall. rewrite !andb_true_iff in Hall.
  destruct Hall as [[[[[H1 H2] H3] H4] H5] H6].
  apply eqb_prop in H1, H2, H3, H4, H5.
  repeat split; try assumption.
  intros Hx. rewrite Hx in H6. apply Z.eqb_eq, H6.
Qed.

Lemma char_at_upcase s : char_at (upcase s) 0 = toupper (char_at s 0).
Proof. destruct s; reflexivity. Qed.

Lemma ptr_add_upcase s k : ptr_add (upcase s) k = upcase (ptr_add s k).
Proof.
  revert s. induction k as [| k IH]; intros s; [destruct s; reflexivity |].
  destruct s as [| c s]; [reflexivity |]. cbn [upcase ptr_add]. apply IH.
Qed.

Lemma strtoul16_pair_upcase c0 c1 :
  isxdigit c0 = true -> isxdigit c1 = true ->
  strtoul16 0 (String (toupper c0) (String (toupper c1) EmptyString))
  = strtoul16 0 (String c0 (String c1 EmptyString)).
Proof.
  intros X0 X1.
  destruct (toupper_facts c0) as (_ & _ & _ & _ & U0 & V0).
  destruct (toupper_facts c1) as (_ & _ & _ & _ & U1 & V1).
  cbn [strtoul16]. rewrite U0, U1, X0, X1, V0, V1 by assumption. reflexivity.
Qed.

Lemma loop_unfold n i src (buf : list Z) :
  string_to_uuid_loop (S n) i src buf
  = if Ascii.eqb (char_at src 0) NUL || Ascii.eqb (char_at src 1) NUL
    then None
    else
      if negb (isxdigit (char_at src 0)) || negb (isxdigit (char_at src 1))
      then None
      else
        string_to_uuid_loop n (S i)
          (if Ascii.eqb (char_at (ptr_add src 2) 0) "-" && hyphen_allowed i
           then ptr_add (ptr_add src 2) 1 else ptr_add src 2)
          (<[i := uchar (strtoul16 0
                   (String (char_at src 0) (String (char_at src 1) EmptyString)))]>
             buf).
Proof.
  cbn [string_to_uuid_loop]. rewrite !char_at_0_cons, !char_at_1_cons.
  unfold hyphen_allowed. rewrite andb_assoc. reflexivity.
Qed.

Lemma char_at_1_upcase s : char_at (upcase s) 1 = toupper (char_at s 1).
Proof. destruct s as [| c [| d s]]; reflexivity. Qed.

Lemma loop_upcase n : forall i src (buf : list Z),
  string_to_uuid_loop n i (upcase src) buf
  = match string_to_uuid_loop n i src buf with
    | Some (src', buf') => Some (upcase src', buf')
    | None => None
    end.
Proof.
  induction n as [| n IH]; intros i src buf; [reflexivity |].
  rewrite !loop_unfold.
  rewrite char_at_upcase, char_at_1_upcase.
  destruct (toupper_facts (char_at src 0)) as (N0 & _ & _ & _ & U0 & _).
  destruct (toupper_facts (char_at src 1)) as (N1 & _ & _ & _ & U1 & _).
  rewrite N0, N1, U0, U1.
  destruct (Ascii.eqb (char_at src 0) NUL || Ascii.eqb (char_at src 1) NUL);
    [reflexivity |].
  destruct (isxdigit (char_at src 0)) eqn:X0; [| reflexivity].
  destruct (isxdigit (char_at src 1)) eqn:X1; [| reflexivity].
  cbn [negb orb].
  rewrite strtoul16_pair_upcase by assumption.
  rewrite !ptr_add_upcase, char_at_upcase.
  destruct (toupper_facts (char_at (ptr_add src 2) 0)) as (_ & -> & _).
  destruct (Ascii.eqb (char_at (ptr_add src 2) 0) "-" && hyphen_allowed i);
    apply IH.
Qed.

(** X24.  [uuid_in] ignores letter case: a text and the same text in
    upper case are both rejected or both read as the same value. *)
Theorem uuid_in_ignores_case s :
  parsed_value (uuid_in (upcase s)) = parsed_value (uuid_in s).
Proof.
  unfold uuid_in, string_to_uuid.
  rewrite char_at_upcase.
  destruct (toupper_facts (char_at s 0)) as (_ & _ & -> & _).
  destruct (Ascii.eqb (char_at s 0) "{"); cbv beta iota zeta;
    rewrite ?ptr_add_upcase, loop_upcase;
    destruct (string_to_uuid_loop _ _ _ _) as [[src' u] |]; try reflexivity;
    rewrite ?ptr_add_upcase, !char_at_upcase.
  - destruct (toupper_facts (char_at src' 0)) as (_ & _ & _ & -> & _).
    destruct (toupper_facts (char_at (ptr_add src' 1) 0)) as (-> & _).
    cbn [andb].
    destruct (negb (Ascii.eqb (char_at src' 0) "}")); [reflexivity |].
    destruct (negb (Ascii.eqb (char_at (ptr_add src' 1) 0) NUL)); reflexivity.
  - destruct (toupper_facts (char_at src' 0)) as (-> & _).
    cbn [andb].
    destruct (negb (Ascii.eqb (char_at src' 0) NUL)); reflexivity.
Qed.

(** ** The statements on sample values *)

Ltac sample_wf :=
  split; [reflexivity | repeat (constructor; [unfold is_uchar; lia |]); constructor].

Lemma sample_u1_wf : uuid_wf Sample.u1.
Proof. sample_wf. Defined.
Lemma sample_u2_wf : uuid_wf Sample.u2.
Proof. sample_wf. Defined.
Lemma sample_u3_wf : uuid_wf Sample.u3.
Proof. sample_wf. Defined.
Lemma sample_v1_wf : uuid_wf Sample.v1.
Proof. sample_wf. Defined.
Lemma sample_v6_wf : uuid_wf Sample.v6.
Proof. sample_wf. Defined.
Lemma sample_v6_later_wf : uuid_wf Sample.v6_later.
Proof. sample_wf. Defined.
Lemma sample_v7_wf : uuid_wf Sample.v7.
Proof. sample_wf. Defined.
Lemma sample_v7_later_wf : uuid_wf Sample.v7_later.
Proof. sample_wf. Defined.
Lemma sample_random16_ok : random_bytes 16 Sample.random16.
Proof. sample_wf. Defined.
Lemma sample_random8_ok : random_bytes 8 Sample.random8.
Proof. sample_wf. Defined.
Lemma sample_random8'_ok : random_bytes 8 Sample.random8'.
Proof. sample_wf. Defined.

Lemma uuid_eq_iff_same_bytes_witness :
  length Sample.u1 = UUID_LEN /\ length Sample.u2 = UUID_LEN
  /\ (uuid_eq Sample.u1 Sample.u2 = true <-> Sample.u1 = Sample.u2)
  /\ (uuid_ne Sample.u1 Sample.u2 = true <-> Sample.u1 <> Sample.u2).
Proof.
  split; [reflexivity |]. split; [reflexivity |].
  exact (uuid_eq_iff_same_bytes Sample.u1 Sample.u2 eq_refl eq_refl).
Defined.

Lemma uuid_order_transitive_witness :
  uuid_lt Sample.u1 Sample.u2 = true /\ uuid_lt Sample.u2 Sample.u3 = true
  /\ uuid_lt Sample.u1 Sample.u3 = true.
Proof.
  assert (H12 : uuid_lt Sample.u1 Sample.u2 = true) by reflexivity.
  assert (H23 : uuid_lt Sample.u2 Sample.u3 = true) by reflexivity.
  split; [exact H12 |]. split; [exact H23 |].
  exact (proj1 (uuid_order_transitive Sample.u1 Sample.u2 Sample.u3
                  eq_refl eq_refl eq_refl) H12 H23).
Defined.

Lemma uuid_order_total_witness :
  length Sample.u1 = UUID_LEN /\ length Sample.u2 = UUID_LEN
  /\ ((uuid_lt Sample.u1 Sample.u2 = true /\ Sample.u1 <> Sample.u2
       /\ uuid_lt Sample.u2 Sample.u1 = false)
      \/ (uuid_lt Sample.u1 Sample.u2 = false /\ Sample.u1 = Sample.u2
          /\ uuid_lt Sample.u2 Sample.u1 = false)
      \/ (uuid_lt Sample.u1 Sample.u2 = false /\ Sample.u1 <> Sample.u2
          /\ uuid_lt Sample.u2 Sample.u1 = true)).
Proof.
  split; [reflexivity |]. split; [reflexivity |].
  exact (uuid_order_total Sample.u1 Sample.u2 eq_refl eq_refl).
Defined.

Lemma uuid_cmp_big_endian_witness :
  uuid_wf Sample.u1 /\ uuid_wf Sample.u2
  /\ Z.sgn (uuid_cmp Sample.u1 Sample.u2)
     = Z.sgn (from_bytes_be Sample.u1 - from_bytes_be Sample.u2).
Proof.
  split; [exact sample_u1_wf |]. split; [exact sample_u2_wf |].
  exact (uuid_cmp_big_endian Sample.u1 Sample.u2 sample_u1_wf sample_u2_wf).
Defined.

Lemma abbreviated_order_agrees_witness :
  uuid_wf Sample.u1 /\ uuid_wf Sample.u3
  /\ fst (uuid_abbrev_convert (Target Datum8 LittleEndian) Sample.u1
            (fixed_state 0 true 0%float))
     = fst (uuid_abbrev_convert (Target Datum8 LittleEndian) Sample.u3
              (fixed_state 1 true 0%float))
  /\ uuid_fast_cmp Sample.u1 Sample.u3
     = memcmp (drop 8 Sample.u1) (drop 8 Sample.u3) 8.
Proof.
  assert (Hk : fst (uuid_abbrev_convert (Target Datum8 LittleEndian) Sample.u1
                      (fixed_state 0 true 0%float))
               = fst (uuid_abbrev_convert (Target Datum8 LittleEndian) Sample.u3
                        (fixed_state 1 true 0%float)))
    by (vm_compute; reflexivity).
  split; [exact sample_u1_wf |]. split; [exact sample_u3_wf |].
  split; [exact Hk |].
  exact (proj2 (proj2 (abbreviated_order_agrees (H := fixed_estimator)
                         (Target Datum8 LittleEndian) Sample.u1 Sample.u3
                         (fixed_state 0 true 0%float) (fixed_state 1 true 0%float)
                         sample_u1_wf sample_u3_wf)) Hk).
Defined.

Lemma no_abort_before_10000_values_witness :
  converted [Convert Sample.u1; Abort 20000; Convert Sample.u2] < 10000
  /\ fst (uuid_abbrev_abort (H := fixed_estimator) 20000
            (sort_run (Target Datum8 LittleEndian) uuid_sortsupport_init
               [Convert Sample.u1; Abort 20000; Convert Sample.u2]))
     = false.
Proof.
  assert (Hc : converted [Convert Sample.u1; Abort 20000; Convert Sample.u2] < 10000)
    by (cbn; lia).
  split; [exact Hc |].
  exact (proj2 (no_abort_before_10000_values (H := fixed_estimator)
                  (Target Datum8 LittleEndian)
                  [Convert Sample.u1; Abort 20000; Convert Sample.u2] 20000 Hc)).
Defined.

Lemma estimator_frozen_once_off_witness :
  estimating (fixed_state 20000 false 7%float) = false
  /\ estimating (sort_run (Target Datum8 LittleEndian)
                   (fixed_state 20000 false 7%float)
                   [Convert Sample.u1; Abort 20000; Convert Sample.u2]) = false
  /\ abbr_card (sort_run (Target Datum8 LittleEndian)
                  (fixed_state 20000 false 7%float)
                  [Convert Sample.u1; Abort 20000; Convert Sample.u2])
     = abbr_card (fixed_state 20000 false 7%float).
Proof.
  split; [reflexivity |].
  exact (estimator_frozen_once_off (H := fixed_estimator)
           (Target Datum8 LittleEndian)
           [Convert Sample.u1; Abort 20000; Convert Sample.u2]
           (fixed_state 20000 false 7%float) eq_refl).
Defined.

Lemma uuid_abbrev_abort_frame_witness :
  fst (uuid_abbrev_abort (H := fixed_estimator) 20000
         (fixed_state 20000 true 10.25%float)) = true
  /\ snd (uuid_abbrev_abort (H := fixed_estimator) 20000
            (fixed_state 20000 true 10.25%float))
     = fixed_state 20000 true 10.25%float.
Proof.
  assert (Hr : fst (uuid_abbrev_abort (H := fixed_estimator) 20000
                      (fixed_state 20000 true 10.25%float)) = true)
    by reflexivity.
  split; [exact Hr |].
  exact (proj1 (proj2 (proj2 (proj2
           (uuid_abbrev_abort_frame (H := fixed_estimator) 20000
              (fixed_state 20000 true 10.25%float)))) Hr)).
Defined.

Lemma gen_random_uuid_is_version_4_witness :
  random_bytes 16 Sample.random16
  /\ exists u,
       gen_random_uuid (Some Sample.random16) = Some u
       /\ uuid_wf u
       /\ uuid_extract_version u = Some 4
       /\ uuid_extract_variant u = 2
       /\ uuid_extract_timestamp u = None.
Proof.
  split; [exact sample_random16_ok |].
  exact (gen_random_uuid_is_version_4 Sample.random16 sample_random16_ok).
Defined.

Lemma gen_random_uuid_keeps_random_bits_witness :
  random_bytes 16 Sample.random16
  /\ exists u,
       gen_random_uuid (Some Sample.random16) = Some u
       /\ (forall i, i <> 6%nat -> i <> 8%nat ->
                     data_at u i = data_at Sample.random16 i)
       /\ data_at u 6 mod 16 = data_at Sample.random16 6 mod 16
       /\ data_at u 8 mod 64 = data_at Sample.random16 8 mod 64.
Proof.
  split; [exact sample_random16_ok |].
  exact (gen_random_uuid_keeps_random_bits Sample.random16 sample_random16_ok).
Defined.

Lemma uuidv7_value_shape_witness :
  random_bytes 8 Sample.random8
  /\ exists u,
       snd (uuidv7 initial (Timeval 1700000000 123456) (Some Sample.random8))
       = Some u
       /\ uuid_wf u
       /\ (forall k, (1 <= k < 8)%nat ->
                     data_at u (8 + k) = data_at Sample.random8 k)
       /\ uuid_extract_version u = Some 7
       /\ uuid_extract_variant u = 2.
Proof.
  split; [exact sample_random8_ok |].
  exact (uuidv7_value_shape initial (Timeval 1700000000 123456) Sample.random8
           sample_random8_ok).
Defined.

Lemma uuidv7_time_ordered_witness :
  gen_state_wf initial
  /\ random_bytes 8 Sample.random8 /\ random_bytes 8 Sample.random8'
  /\ exists u1 u2,
       snd (uuidv7 initial (Timeval 1700000000 0) (Some Sample.random8)) = Some u1
       /\ snd (uuidv7
                 (fst (uuidv7 initial (Timeval 1700000000 0) (Some Sample.random8)))
                 (Timeval 1699999999 0) (Some Sample.random8')) = Some u2
       /\ memcmp u1 u2 8 <= 0.
Proof.
  split; [exact initial_wf |]. split; [exact sample_random8_ok |].
  split; [exact sample_random8'_ok |].
  assert (Hnw : ~ at_wrap (fst (uuidv7 initial (Timeval 1700000000 0)
                                  (Some Sample.random8)))).
  { intros [Hp _]. vm_compute in Hp. discriminate Hp. }
  assert (Hb : previous_timestamp
                 (fst (uuidv7 (fst (uuidv7 initial (Timeval 1700000000 0)
                                      (Some Sample.random8)))
                         (Timeval 1699999999 0) (Some Sample.random8'))) < 2 ^ 48)
    by (vm_compute; reflexivity).
  destruct (uuidv7_time_ordered initial (Timeval 1700000000 0) Sample.random8
              (Timeval 1699999999 0) Sample.random8'
              initial_wf sample_random8_ok sample_random8'_ok Hnw Hb)
    as (u1 & u2 & H1 & H2 & Hle & _).
  exists u1, u2. auto.
Defined.

Lemma effective_timestamp_bounds_witness :
  gen_state_wf (GenState 0x3ffff 1700000000000)
  /\ ~ at_wrap (GenState 0x3ffff 1700000000000)
  /\ effective_timestamp (GenState 0x3ffff 1700000000000) (Timeval 1699999999 0)
     = Z.max (clock_ms (Timeval 1699999999 0)) 1700000000000 + 1.
Proof.
  assert (Hwf : gen_state_wf (GenState 0x3ffff 1700000000000))
    by (unfold gen_state_wf; cbn; lia).
  assert (Hnw : ~ at_wrap (GenState 0x3ffff 1700000000000))
    by (unfold at_wrap; cbn; lia).
  split; [exact Hwf |]. split; [exact Hnw |].
  apply (proj2 (proj2 (effective_timestamp_bounds (GenState 0x3ffff 1700000000000)
                         (Timeval 1699999999 0) Hwf Hnw))).
  split; [vm_compute; discriminate | reflexivity].
Defined.

Lemma counter_overflow_advances_timestamp_witness :
  clock_ms (Timeval 1 0) <= 1000
  /\ repeat_call (Z.to_N (0x40000 - 0x3fffd)) (Timeval 1 0) (Some Sample.random8)
       (GenState 0x3fffd 1000)
     = GenState 0 (1000 + 1).
Proof.
  assert (Hc : clock_ms (Timeval 1 0) <= 1000) by (vm_compute; discriminate).
  split; [exact Hc |].
  exact (proj2 (counter_overflow_advances_timestamp (Timeval 1 0)
                  (Some Sample.random8) 0x3fffd 1000
                  ltac:(lia) ltac:(lia) Hc)).
Defined.

Lemma variant_and_version_witness :
  uuid_wf Sample.u1
  /\ uuid_extract_variant Sample.u1 = 2
  /\ 0x80 <= data_at Sample.u1 8 < 0xc0.
Proof.
  split; [exact sample_u1_wf |].
  assert (Hv : uuid_extract_variant Sample.u1 = 2) by reflexivity.
  split; [exact Hv |].
  exact (proj1 (proj1 (proj2 (variant_and_version Sample.u1 sample_u1_wf))) Hv).
Defined.

Lemma extract_timestamp_v1_witness :
  uuid_wf Sample.v1 /\ variant_bits Sample.v1 = 2 /\ version_nibble Sample.v1 = 1
  /\ uuid_extract_timestamp Sample.v1
     = Some (v1_timestamp Sample.v1 / 10 - 13165977600000000)
  /\ v1_timestamp Sample.v1 = 0x1ec9414c232ab00.
Proof.
  split; [exact sample_v1_wf |]. split; [reflexivity |]. split; [reflexivity |].
  split; [| reflexivity].
  exact (proj1 (extract_timestamp_v1 Sample.v1 sample_v1_wf eq_refl eq_refl)).
Defined.

Lemma extract_timestamp_v6_witness :
  uuid_wf Sample.v6 /\ variant_bits Sample.v6 = 2 /\ version_nibble Sample.v6 = 6
  /\ uuid_extract_timestamp Sample.v6
     = Some (v6_timestamp Sample.v6 / 10 - 13165977600000000)
  /\ v6_timestamp Sample.v6 = 0x1ec9414c232ab00.
Proof.
  split; [exact sample_v6_wf |]. split; [reflexivity |]. split; [reflexivity |].
  split; [| reflexivity].
  exact (proj1 (extract_timestamp_v6 Sample.v6 sample_v6_wf eq_refl eq_refl)).
Defined.

Lemma v7_order_is_time_order_witness :
  uuid_wf Sample.v7 /\ uuid_wf Sample.v7_later
  /\ uuid_le Sample.v7 Sample.v7_later = true
  /\ exists ta tb,
       uuid_extract_timestamp Sample.v7 = Some ta
       /\ uuid_extract_timestamp Sample.v7_later = Some tb
       /\ ta <= tb.
Proof.
  split; [exact sample_v7_wf |]. split; [exact sample_v7_later_wf |].
  split; [reflexivity |].
  exact (v7_order_is_time_order Sample.v7 Sample.v7_later
           sample_v7_wf sample_v7_later_wf eq_refl eq_refl eq_refl eq_refl eq_refl).
Defined.

Lemma v6_order_is_time_order_witness :
  uuid_wf Sample.v6 /\ uuid_wf Sample.v6_later
  /\ uuid_le Sample.v6 Sample.v6_later = true
  /\ exists ta tb,
       uuid_extract_timestamp Sample.v6 = Some ta
       /\ uuid_extract_timestamp Sample.v6_later = Some tb
       /\ ta <= tb.
Proof.
  split; [exact sample_v6_wf |]. split; [exact sample_v6_later_wf |].
  split; [reflexivity |].
  exact (v6_order_is_time_order Sample.v6 Sample.v6_later
           sample_v6_wf sample_v6_later_wf eq_refl eq_refl eq_refl eq_refl eq_refl).
Defined.

Lemma uuid_in_surroundings_witness :
  uuid_wf Sample.u1 /\ hyphens_allowed output_hyphen = true
  /\ String "{" (hyphenated output_hyphen Sample.u1 ++ "}")
     = "{550e8400-e29b-41d4-a716-446655440000}"%string
  /\ parsed_value (uuid_in (String "{" (hyphenated output_hyphen Sample.u1 ++ "}")))
     = Some Sample.u1
  /\ parsed_value (uuid_in (hyphenated output_hyphen Sample.u1 ++ "}")) = None.
Proof.
  split; [exact sample_u1_wf |]. split; [reflexivity |]. split; [reflexivity |].
  destruct (uuid_in_surroundings output_hyphen Sample.u1 "}" sample_u1_wf eq_refl)
    as [Hplain Hbraced].
  split; [rewrite Hbraced; reflexivity | rewrite Hplain; reflexivity].
Defined.

Lemma uuid_in_result_canonical_witness :
  uuid_in "{550E8400E29B-41D4A716-446655440000}" = Parsed Sample.u1
  /\ uuid_wf Sample.u1
  /\ uuid_in (uuid_out Sample.u1) = Parsed Sample.u1.
Proof.
  assert (Hp : uuid_in "{550E8400E29B-41D4A716-446655440000}" = Parsed Sample.u1)
    by (vm_compute; reflexivity).
  split; [exact Hp |].
  exact (uuid_in_result_canonical _ Sample.u1 Hp).
Defined.

Lemma accepted_text_shape_witness :
  uuid_in "{550E8400E29B-41D4A716-446655440000}" = Parsed Sample.u1
  /\ (32 <= String.length "{550E8400E29B-41D4A716-446655440000}")%nat
  /\ count_xdigits "{550E8400E29B-41D4A716-446655440000}" = 32%nat.
Proof.
  assert (Hp : uuid_in "{550E8400E29B-41D4A716-446655440000}" = Parsed Sample.u1)
    by (vm_compute; reflexivity).
  split; [exact Hp |].
  destruct (accepted_text_shape _ Sample.u1 Hp) as [Hlen Hshape].
  split; [exact Hlen |]. exact (proj1 (Hshape eq_refl)).
Defined.

Lemma uuid_out_injective_witness :
  uuid_wf Sample.u1 /\ uuid_wf Sample.u1
  /\ uuid_out Sample.u1 = uuid_out Sample.u1
  /\ Sample.u1 = Sample.u1.
Proof.
  split; [exact sample_u1_wf |]. split; [exact sample_u1_wf |].
  split; [reflexivity |].
  exact (uuid_out_injective Sample.u1 Sample.u1 sample_u1_wf sample_u1_wf eq_refl).
Defined.
